(** * mongodbstore: a gorilla/sessions store backed by a MongoDB collection

    A shallow embedding of [mongodbstore.go].  The store is a thin layer over
    three libraries (encoding/hex and the driver's [primitive.ObjectID],
    gorilla/securecookie, and the MongoDB driver's collection); each of them
    is modelled in a module of its own name, to the extent the store calls
    it.  What the store cannot decide itself is kept open: the keyed
    serialisation of a [securecookie.SecureCookie] is the class
    [securecookie.Sealing]; the outcome of a driver round trip, the clock
    and the ObjectID generator are fields of the [World] the operations run
    in. *)

From Stdlib Require Import ZArith NArith String Ascii List.
From stdpp Require Import base option list countable strings gmap.

Local Open Scope string_scope.
Local Open Scope list_scope.
Set Warnings "-register-all".

(** Go strings and byte slices are both sequences of 8-bit bytes. *)
Abbreviation byte := ascii (only parsing).

(** ** Errors *)

(** The error values that reach the store, as Go's [error] interface values. *)
Inductive error : Type :=
| ErrInvalidId                       (* mongodbstore: invalid session id *)
| ErrInvalidModified                 (* mongodbstore: invalid modified value *)
| errNoCodecs                        (* securecookie: no codecs provided *)
| MultiError (errors : list error)   (* securecookie.MultiError *)
| ErrCodec (msg : string)            (* an error of one codec's Encode or Decode *)
| ErrLength                          (* encoding/hex: odd length hex string *)
| InvalidByteError (c : byte)        (* encoding/hex: invalid byte *)
| ErrInvalidHex                      (* primitive: not a valid ObjectID *)
| ErrNoDocuments                     (* mongo: no documents in result *)
| ErrDriver (msg : string)           (* any other error of a driver round trip *)
| ErrNoCookie.                       (* http: named cookie not present *)

(** A Go result pair [(value, err)]: [Ok v] is [(v, nil)], [Err e] is
    [(zero, e)]. *)
Inductive result (A : Type) : Type :=
| Ok (a : A)
| Err (e : error).
Arguments Ok {A} a.
Arguments Err {A} e.

(** ** encoding/hex *)

Module hex.

Definition hextable : string := "0123456789abcdef".

(** [hextable[i]] for [i < 16]. *)
Definition hexdigit (i : N) : byte :=
  match String.get (N.to_nat i) hextable with
  | Some c => c
  | None => "0"%char
  end.

(** [Encode]: each byte [v] becomes [hextable[v>>4]], [hextable[v&0x0f]]. *)
Fixpoint Encode (src : list byte) : list byte :=
  match src with
  | [] => []
  | v :: rest =>
      hexdigit (N.shiftr (N_of_ascii v) 4)
        :: hexdigit (N.land (N_of_ascii v) 15)
        :: Encode rest
  end.

Definition EncodeToString (src : list byte) : string :=
  string_of_list_ascii (Encode src).

Definition between (lo hi : N) (c : byte) : bool :=
  (lo <=? N_of_ascii c)%N && (N_of_ascii c <=? hi)%N.

(** [fromHexChar]: the value of a hexadecimal digit, of either case. *)
Definition fromHexChar (c : byte) : option N :=
  if between 48 57 c then Some (N_of_ascii c - 48)%N            (* '0'..'9' *)
  else if between 97 102 c then Some (N_of_ascii c - 97 + 10)%N (* 'a'..'f' *)
  else if between 65 70 c then Some (N_of_ascii c - 65 + 10)%N  (* 'A'..'F' *)
  else None.

(** [Decode]: two digits per byte, [(a << 4) | b]; an invalid digit is
    reported before an odd length. *)
Fixpoint Decode (src : list byte) : result (list byte) :=
  match src with
  | [] => Ok []
  | [c] =>
      match fromHexChar c with
      | None => Err (InvalidByteError c)
      | Some _ => Err ErrLength
      end
  | c1 :: c2 :: rest =>
      match fromHexChar c1 with
      | None => Err (InvalidByteError c1)
      | Some a =>
          match fromHexChar c2 with
          | None => Err (InvalidByteError c2)
          | Some b =>
              match Decode rest with
              | Ok bs => Ok (ascii_of_N (N.lor (N.shiftl a 4) b) :: bs)
              | Err e => Err e
              end
          end
      end
  end.

Definition DecodeString (s : string) : result (list byte) :=
  Decode (list_ascii_of_string s).

(** A byte that [fromHexChar] accepts. *)
Definition is_hex_digit (c : byte) : Prop := is_Some (fromHexChar c).

End hex.

(** ** primitive.ObjectID *)

Module primitive.

(** [type ObjectID [12]byte]. *)
Inductive ObjectID : Type :=
| OID (b0 b1 b2 b3 b4 b5 b6 b7 b8 b9 b10 b11 : byte).

(** [id[:]]. *)
Definition bytes (id : ObjectID) : list byte :=
  match id with
  | OID b0 b1 b2 b3 b4 b5 b6 b7 b8 b9 b10 b11 =>
      [b0; b1; b2; b3; b4; b5; b6; b7; b8; b9; b10; b11]
  end.

(** [copy(oid[:], b)] for a slice of twelve bytes. *)
Definition of_bytes (b : list byte) : option ObjectID :=
  match b with
  | [b0; b1; b2; b3; b4; b5; b6; b7; b8; b9; b10; b11] =>
      Some (OID b0 b1 b2 b3 b4 b5 b6 b7 b8 b9 b10 b11)
  | _ => None
  end.

#[global] Instance ObjectID_eq_dec : EqDecision ObjectID.
Proof. solve_decision. Defined.

#[global] Instance ObjectID_countable : Countable ObjectID.
Proof. apply (inj_countable bytes of_bytes). by intros []. Defined.

(** [id.Hex()]. *)
Definition Hex (id : ObjectID) : string := hex.EncodeToString (bytes id).

(** [ObjectIDFromHex]: the string must be the hexadecimal form of exactly
    twelve bytes. *)
Definition ObjectIDFromHex (s : string) : result ObjectID :=
  match hex.DecodeString s with
  | Err e => Err e
  | Ok b =>
      match of_bytes b with
      | Some oid => Ok oid
      | None => Err ErrInvalidHex
      end
  end.

End primitive.

(** ** Dynamic values *)

(** [time.Time], as an instant in nanoseconds. *)
Module time.
Abbreviation Time := Z (only parsing).
End time.

(** A Go [interface{}] value as the session's values mapping holds them
    (keys and values of a [map[interface{}]interface{}]): the dynamic type
    and the value. *)
Inductive any : Type :=
| AString (s : string)
| AInt (n : Z)
| ABool (b : bool)
| ATime (t : time.Time).

#[global] Instance any_eq_dec : EqDecision any.
Proof. solve_decision. Defined.

Definition any_to_sum (a : any) : string + Z + bool + Z :=
  match a with
  | AString s => inl (inl (inl s))
  | AInt n => inl (inl (inr n))
  | ABool b => inl (inr b)
  | ATime t => inr t
  end.

Definition any_of_sum (x : string + Z + bool + Z) : any :=
  match x with
  | inl (inl (inl s)) => AString s
  | inl (inl (inr n)) => AInt n
  | inl (inr b) => ABool b
  | inr t => ATime t
  end.

#[global] Instance any_countable : Countable any.
Proof. apply (inj_countable' any_to_sum any_of_sum). by intros []. Defined.

(** The type assertion [val.(time.Time)]. *)
Definition assert_Time (val : any) : option time.Time :=
  match val with
  | ATime t => Some t
  | _ => None
  end.

(** What the store hands to a codec: the identifier (a string) or the
    values mapping. *)
Inductive payload : Type :=
| PString (s : string)
| PValues (m : gmap any any).

#[global] Instance payload_eq_dec : EqDecision payload.
Proof. solve_decision. Defined.

(** ** gorilla/sessions *)

Module sessions.

Record Options : Type := mkOptions {
  Path : string;
  Domain : string;
  MaxAge : Z;
  Secure : bool;
  HttpOnly : bool;
}.

(** [sessions.Session]; [Opts] is the Go field [Options] (a name the record
    type already has here), [name] is read by [Name()]. *)
Record Session : Type := mkSession {
  ID : string;
  Values : gmap any any;
  Opts : Options;
  IsNew : bool;
  name : string;
}.

Definition Name (s : Session) : string := name s.

(** The zero [Options] value. *)
Definition zeroOptions : Options :=
  {| Path := ""; Domain := ""; MaxAge := 0; Secure := false; HttpOnly := false |}.

(** [NewSession(store, name)]: an empty values mapping and zero fields. *)
Definition NewSession (name : string) : Session :=
  {| ID := ""; Values := ∅; Opts := zeroOptions; IsNew := false; name := name |}.

(** Field assignments [session.ID = id], [session.Values = m],
    [session.Options = o], [session.IsNew = b]. *)
Definition set_ID (s : Session) (id : string) : Session :=
  {| ID := id; Values := Values s; Opts := Opts s; IsNew := IsNew s; name := name s |}.

Definition set_Values (s : Session) (m : gmap any any) : Session :=
  {| ID := ID s; Values := m; Opts := Opts s; IsNew := IsNew s; name := name s |}.

Definition set_Opts (s : Session) (o : Options) : Session :=
  {| ID := ID s; Values := Values s; Opts := o; IsNew := IsNew s; name := name s |}.

Definition set_IsNew (s : Session) (b : bool) : Session :=
  {| ID := ID s; Values := Values s; Opts := Opts s; IsNew := b; name := name s |}.

End sessions.

(** ** net/http, as far as a token transport sees it *)

Module http.

(** A cookie of a [Set-Cookie] header, as [sessions.NewCookie] fills it. *)
Record Cookie : Type := mkCookie {
  CookieName : string;
  CookieValue : string;
  CookieOptions : sessions.Options;
}.

(** The cookies a request carries, in header order. *)
Record Request : Type := mkRequest {
  Cookies : list (string * string);
}.

(** The [Set-Cookie] headers written to a response so far. *)
Record ResponseWriter : Type := mkResponseWriter {
  SetCookies : list Cookie;
}.

(** [r.Cookie(name)]: the first cookie of that name, or [ErrNoCookie]. *)
Fixpoint lookup_cookie (name : string) (cs : list (string * string)) : result string :=
  match cs with
  | [] => Err ErrNoCookie
  | (n, v) :: rest => if String.eqb n name then Ok v else lookup_cookie name rest
  end.

Definition Cookie_of (r : Request) (name : string) : result string :=
  lookup_cookie name (Cookies r).

(** [http.SetCookie(w, cookie)]. *)
Definition SetCookie (w : ResponseWriter) (c : Cookie) : ResponseWriter :=
  {| SetCookies := SetCookies w ++ [c] |}.

End http.

(** ** The store's data *)

(** [Session]: the document the collection holds ([_id], [Data], [Modified]). *)
Record Session : Type := mkDocument {
  ID : primitive.ObjectID;
  Data : string;
  Modified : time.Time;
}.

(** The calls the store makes on its collaborators, in the order made: the
    driver's round trips with their outcome (a [ReplaceOne] with the
    document as it is sent), and the token transport's [SetToken]. *)
Inductive Call : Type :=
| FindOne_call (id : primitive.ObjectID)
| ReplaceOne_call (id : primitive.ObjectID) (doc : Session) (err : option error)
| DeleteOne_call (id : primitive.ObjectID) (err : option error)
| CreateIndex_call (expireAfterSeconds : Z) (err : option error)
| SetToken_call (name value : string) (options : sessions.Options).

(** What the store's operations run in: the documents of [m.collection],
    the outcomes of the driver round trips to come ([Some e]: the round trip
    fails with [e]; past the end of the list they succeed), the wall clock,
    the ObjectIDs [primitive.NewObjectID] will hand out, and the calls made
    so far. *)
Record World : Type := mkWorld {
  collection : gmap primitive.ObjectID Session;
  driver : list (option error);
  clock : time.Time;
  objectIDs : nat -> primitive.ObjectID;
  calls : list Call;
}.

(** State passing: a Go function with effects is a function of the world,
    and returns its results as Go does ([nil] is [None]). *)
Definition M (A : Type) : Type := World -> A * World.

#[global] Instance M_ret : MRet M := fun A (a : A) w => (a, w).

#[global] Instance M_bind : MBind M :=
  fun A B (f : A -> M B) (c : M A) w => let '(a, w') := c w in f a w'.

(** [time.Now()]. *)
Definition time_Now : M time.Time := fun w => (clock w, w).

(** Record one call. *)
Definition log (c : Call) : M unit := fun w =>
  (tt, {| collection := collection w; driver := driver w; clock := clock w;
          objectIDs := objectIDs w; calls := calls w ++ [c] |}).

(** [primitive.NewObjectID()]: the generator's next identifier. *)
Definition NewObjectID : M primitive.ObjectID := fun w =>
  (objectIDs w 0%nat,
   {| collection := collection w; driver := driver w; clock := clock w;
      objectIDs := fun n => objectIDs w (S n); calls := calls w |}).

(** ** The MongoDB driver's collection *)

Module mongo.

(** One round trip to the server: its outcome is the world's to decide. *)
Definition roundTrip : M (option error) := fun w =>
  match driver w with
  | [] => (None, w)
  | o :: rest =>
      (o, {| collection := collection w; driver := rest; clock := clock w;
             objectIDs := objectIDs w; calls := calls w |})
  end.

Definition put (id : primitive.ObjectID) (doc : Session) : M unit := fun w =>
  (tt, {| collection := <[id := doc]> (collection w); driver := driver w;
          clock := clock w; objectIDs := objectIDs w; calls := calls w |}).

Definition remove (id : primitive.ObjectID) : M unit := fun w =>
  (tt, {| collection := delete id (collection w); driver := driver w;
          clock := clock w; objectIDs := objectIDs w; calls := calls w |}).

(** [c.FindOne(ctx, bson.D{{"_id", id}}).Decode(&s)]. *)
Definition FindOne (id : primitive.ObjectID) : M (result Session) :=
  _ ← log (FindOne_call id);
  failure ← roundTrip;
  match failure with
  | Some e => mret (Err e)
  | None => fun w =>
      match collection w !! id with
      | Some doc => (Ok doc, w)
      | None => (Err ErrNoDocuments, w)
      end
  end.

(** A [time.Time] as the BSON datetime the driver writes for it, in
    milliseconds: [t.Unix()*1000 + t.Nanosecond()/1e6]. *)
Definition DateTime (t : time.Time) : Z :=
  (t / 1000000000 * 1000 + t mod 1000000000 / 1000000)%Z.

(** The [time.Time] a BSON datetime is read back as. *)
Definition Time_of (ms : Z) : time.Time := (ms * 1000000)%Z.

(** A document as the driver marshals it to BSON: the [Modified] time is
    cut to whole milliseconds, [_id] and [Data] go as they are. *)
Definition marshal (doc : Session) : Session :=
  {| ID := ID doc; Data := Data doc; Modified := Time_of (DateTime (Modified doc)) |}.

(** [c.ReplaceOne(ctx, bson.D{{"_id", id}}, &doc, Upsert: true)]: the
    document, marshalled, replaces the one of that [_id], or is inserted;
    the call is recorded with the document as sent. *)
Definition ReplaceOne (id : primitive.ObjectID) (doc : Session) : M (option error) :=
  let doc := marshal doc in
  failure ← roundTrip;
  _ ← log (ReplaceOne_call id doc failure);
  match failure with
  | Some e => mret (Some e)
  | None => _ ← put id doc; mret None
  end.

(** [c.DeleteOne(ctx, bson.D{{"_id", id}})]: deleting nothing is no error. *)
Definition DeleteOne (id : primitive.ObjectID) : M (option error) :=
  failure ← roundTrip;
  _ ← log (DeleteOne_call id failure);
  match failure with
  | Some e => mret (Some e)
  | None => _ ← remove id; mret None
  end.

(** [int32(n)]: the low 32 bits, read as a signed number. *)
Definition int32 (n : Z) : Z := ((n + 2 ^ 31) mod 2 ^ 32 - 2 ^ 31)%Z.

(** [c.Indexes().CreateOne(...)]: the TTL index on [modified]; it changes
    no document. *)
Definition CreateIndex (expireAfterSeconds : Z) : M (option error) :=
  failure ← roundTrip;
  _ ← log (CreateIndex_call expireAfterSeconds failure);
  mret failure.

End mongo.

(** ** gorilla/securecookie *)

Module securecookie.

(** [securecookie.SecureCookie]: the keys and limits of one codec. *)
Record SecureCookie : Type := mkSecureCookie {
  hashKey : list byte;
  blockKey : list byte;
  maxLength : Z;
  maxAge : Z;
  minAge : Z;
}.

(** [securecookie.New(hashKey, blockKey)]. *)
Definition New (hashKey blockKey : list byte) : SecureCookie :=
  {| hashKey := hashKey; blockKey := blockKey; maxLength := 4096;
     maxAge := 86400 * 30; minAge := 0 |}.

(** [s.MaxAge(value)]. *)
Definition SetMaxAge (s : SecureCookie) (value : Z) : SecureCookie :=
  {| hashKey := hashKey s; blockKey := blockKey s; maxLength := maxLength s;
     maxAge := value; minAge := minAge s |}.

(** What a [SecureCookie] does with a value (serialise, encrypt, sign and
    timestamp; verify, check the age, decrypt, deserialise) is not the
    store's to decide: it is a function of the codec's fields, the time of
    the call, the name and the value. *)
Class Sealing : Type := {
  seal : SecureCookie -> time.Time -> string -> payload -> result string;
  unseal : SecureCookie -> time.Time -> string -> string -> result payload;
}.

(** Any other implementation of the [Codec] interface: its two methods, and
    an expiry window of its own that only they read. *)
Record Custom : Type := mkCustom {
  window : Z;
  customEncode : time.Time -> string -> payload -> result string;
  customDecode : time.Time -> string -> string -> result payload;
}.

(** A [securecookie.Codec] interface value, by its dynamic type. *)
Inductive Codec : Type :=
| SecureCookiePtr (sc : SecureCookie)   (* *securecookie.SecureCookie *)
| OtherCodec (c : Custom).

(** The expiry window a codec checks token ages against. *)
Definition expiry (codec : Codec) : Z :=
  match codec with
  | SecureCookiePtr sc => maxAge sc
  | OtherCodec c => window c
  end.

Section methods.
Context `{Sealing}.

Definition Encode (codec : Codec) (now : time.Time) (name : string) (value : payload)
  : result string :=
  match codec with
  | SecureCookiePtr sc => seal sc now name value
  | OtherCodec c => customEncode c now name value
  end.

Definition Decode (codec : Codec) (now : time.Time) (name value : string)
  : result payload :=
  match codec with
  | SecureCookiePtr sc => unseal sc now name value
  | OtherCodec c => customDecode c now name value
  end.

(** [codec.Decode(name, value, &dst)] for a string [dst]: a token that holds
    something else does not decode. *)
Definition into_string (codec : Codec) (now : time.Time) (name value : string)
  : result string :=
  match Decode codec now name value with
  | Ok (PString s) => Ok s
  | Ok (PValues _) => Err (ErrCodec "securecookie: type mismatch")
  | Err e => Err e
  end.

(** [codec.Decode(name, value, &dst)] for a map [dst]: the decoded entries
    are stored into the map [dst] points to. *)
Definition into_values (dst : gmap any any) (codec : Codec) (now : time.Time)
  (name value : string) : result (gmap any any) :=
  match Decode codec now name value with
  | Ok (PValues m) => Ok (m ∪ dst)
  | Ok (PString _) => Err (ErrCodec "securecookie: type mismatch")
  | Err e => Err e
  end.

(** The loop of [EncodeMulti]: the first codec that encodes wins. *)
Fixpoint encode_loop (now : time.Time) (name : string) (value : payload)
  (codecs : list Codec) (errors : list error) : result string :=
  match codecs with
  | [] => Err (MultiError errors)
  | codec :: rest =>
      match Encode codec now name value with
      | Ok encoded => Ok encoded
      | Err err => encode_loop now name value rest (errors ++ [err])
      end
  end.

(** [EncodeMulti] at the time [now]. *)
Definition encode_chain (now : time.Time) (name : string) (value : payload)
  (codecs : list Codec) : result string :=
  match codecs with
  | [] => Err errNoCodecs
  | _ => encode_loop now name value codecs []
  end.

(** [EncodeMulti(name, value, codecs...)]: the codecs read the clock. *)
Definition EncodeMulti (name : string) (value : payload) (codecs : list Codec)
  : M (result string) := fun w =>
  (encode_chain (clock w) name value codecs, w).

(** The loop of [DecodeMulti]: the first codec that decodes wins. *)
Fixpoint decode_loop {A : Type} (into : Codec -> result A)
  (codecs : list Codec) (errors : list error) : result A :=
  match codecs with
  | [] => Err (MultiError errors)
  | codec :: rest =>
      match into codec with
      | Ok a => Ok a
      | Err err => decode_loop into rest (errors ++ [err])
      end
  end.

(** [DecodeMulti] at the time [now]. *)
Definition decode_chain {A : Type}
  (into : Codec -> time.Time -> string -> string -> result A)
  (now : time.Time) (name value : string) (codecs : list Codec) : result A :=
  match codecs with
  | [] => Err errNoCodecs
  | _ => decode_loop (fun codec => into codec now name value) codecs []
  end.

(** [DecodeMulti(name, value, &dst, codecs...)]. *)
Definition DecodeMulti {A : Type}
  (into : Codec -> time.Time -> string -> string -> result A)
  (name value : string) (codecs : list Codec) : M (result A) := fun w =>
  (decode_chain into (clock w) name value codecs, w).

(** A chain of codecs is faithful between two times when a token that one
    of them sealed at the first is opened by the same codec at the second
    to the value sealed, and no codec of the chain opens it to anything
    else. *)
Definition faithful (codecs : list Codec) (sealed opened : time.Time) : Prop :=
  forall codec codec' name value token,
    codec ∈ codecs -> codec' ∈ codecs ->
    Encode codec sealed name value = Ok token ->
    Decode codec opened name token = Ok value /\
    (forall value', Decode codec' opened name token = Ok value' -> value' = value).

End methods.

(** [CodecsFromPairs(keyPairs...)]: one [SecureCookie] per (hash key, block
    key) pair; a last key without a partner has no block key. *)
Fixpoint CodecsFromPairs (keyPairs : list (list byte)) : list Codec :=
  match keyPairs with
  | [] => []
  | [hk] => [SecureCookiePtr (New hk [])]
  | hk :: bk :: rest => SecureCookiePtr (New hk bk) :: CodecsFromPairs rest
  end.

End securecookie.

(** ** The token transport *)

(** Modelled from the spec: the [TokenGetSeter] interface and its default
    implementation [CookieToken] are declared in a file of the repository
    that is not among the sources.  The spec (4.6) describes the interface
    as "get current token for a named session from a request" and "set/clear
    token for a named session on a response", parameterized by the cookie
    attributes. *)
Record TokenGetSeter : Type := mkTokenGetSeter {
  GetToken : http.Request -> string -> result string;
  SetToken : http.ResponseWriter -> string -> string -> sessions.Options
             -> http.ResponseWriter;
}.

(** Modelled from the spec: [CookieToken], "the default implementation maps
    directly to a single HTTP cookie" named after the session. *)
Definition CookieToken : TokenGetSeter :=
  {| GetToken := fun req name => http.Cookie_of req name;
     SetToken := fun rw name value options =>
       http.SetCookie rw (http.mkCookie name value options) |}.

(** ** MongoDBStore *)

(** [MongoDBStore]; the documents of its [collection] are the world's. *)
Record MongoDBStore : Type := mkMongoDBStore {
  Codecs : list securecookie.Codec;
  Options : sessions.Options;
  Token : TokenGetSeter;
}.

(** [m.Token.SetToken(w, name, value, options)], recorded as a call. *)
Definition call_SetToken (m : MongoDBStore) (w : http.ResponseWriter)
  (name value : string) (options : sessions.Options) : M http.ResponseWriter :=
  _ ← log (SetToken_call name value options);
  mret (SetToken (Token m) w name value options).

(** [m.MaxAge(age)]: only a codec whose dynamic type is
    [*securecookie.SecureCookie] passes the type assertion. *)
Definition MaxAge (m : MongoDBStore) (age : Z) : MongoDBStore :=
  {| Codecs :=
       map (fun codec =>
              match codec with
              | securecookie.SecureCookiePtr sc =>
                  securecookie.SecureCookiePtr (securecookie.SetMaxAge sc age)
              | other => other
              end) (Codecs m);
     Options :=
       {| sessions.Path := sessions.Path (Options m);
          sessions.Domain := sessions.Domain (Options m);
          sessions.MaxAge := age;
          sessions.Secure := sessions.Secure (Options m);
          sessions.HttpOnly := sessions.HttpOnly (Options m) |};
     Token := Token m |}.

(** [NewMongoDBStore(c, maxAge, ensureTTL, keyPairs...)]; the outcome of the
    index creation is dropped. *)
Definition NewMongoDBStore (maxAge : Z) (ensureTTL : bool)
  (keyPairs : list (list byte)) : M MongoDBStore :=
  let store :=
    {| Codecs := securecookie.CodecsFromPairs keyPairs;
       Options := {| sessions.Path := "/"; sessions.Domain := "";
                     sessions.MaxAge := maxAge; sessions.Secure := false;
                     sessions.HttpOnly := false |};
       Token := CookieToken |} in
  let store := MaxAge store maxAge in
  if ensureTTL then
    _ ← mongo.CreateIndex (mongo.int32 maxAge);
    mret store
  else mret store.

Section store.
Context `{securecookie.Sealing}.

(** [m.load(session)]: the session comes back with the decoded values. *)
Definition load (m : MongoDBStore) (session : sessions.Session)
  : M (sessions.Session * option error) :=
  match primitive.ObjectIDFromHex (sessions.ID session) with
  | Err _ => mret (session, Some ErrInvalidId)
  | Ok sessionID =>
      found ← mongo.FindOne sessionID;
      match found with
      | Err err => mret (session, Some err)
      | Ok s =>
          decoded ← securecookie.DecodeMulti
                      (securecookie.into_values (sessions.Values session))
                      (sessions.Name session) (Data s) (Codecs m);
          match decoded with
          | Err err => mret (session, Some err)
          | Ok values => mret (sessions.set_Values session values, None)
          end
      end
  end.

(** The [modified] timestamp of [upsert]: the value under the key
    ["modified"] when it is a [time.Time], an error when it is anything
    else, the clock when the key is absent. *)
Definition modified_of (session : sessions.Session) : M (result time.Time) :=
  match sessions.Values session !! AString "modified" with
  | Some val =>
      match assert_Time val with
      | Some modified => mret (Ok modified)
      | None => mret (Err ErrInvalidModified)
      end
  | None => now ← time_Now; mret (Ok now)
  end.

(** [m.upsert(session)]. *)
Definition upsert (m : MongoDBStore) (session : sessions.Session) : M (option error) :=
  match primitive.ObjectIDFromHex (sessions.ID session) with
  | Err _ => mret (Some ErrInvalidId)
  | Ok sessionID =>
      modified ← modified_of session;
      match modified with
      | Err err => mret (Some err)
      | Ok modified =>
          encoded ← securecookie.EncodeMulti (sessions.Name session)
                      (PValues (sessions.Values session)) (Codecs m);
          match encoded with
          | Err err => mret (Some err)
          | Ok encoded =>
              let s := {| ID := sessionID; Data := encoded; Modified := modified |} in
              mongo.ReplaceOne (ID s) s
          end
      end
  end.

(** [m.delete(session)]. *)
Definition delete (m : MongoDBStore) (session : sessions.Session) : M (option error) :=
  match primitive.ObjectIDFromHex (sessions.ID session) with
  | Err _ => mret (Some ErrInvalidId)
  | Ok sessionID => mongo.DeleteOne sessionID
  end.

(** [m.New(r, name)]. *)
Definition New (m : MongoDBStore) (r : http.Request) (name : string)
  : M (sessions.Session * option error) :=
  let session := sessions.NewSession name in
  let session :=
    sessions.set_Opts session
      {| sessions.Path := sessions.Path (Options m);
         sessions.MaxAge := sessions.MaxAge (Options m);
         sessions.Domain := sessions.Domain (Options m);
         sessions.Secure := sessions.Secure (Options m);
         sessions.HttpOnly := sessions.HttpOnly (Options m) |} in
  let session := sessions.set_IsNew session true in
  match GetToken (Token m) r name with
  | Ok cook =>
      decoded ← securecookie.DecodeMulti securecookie.into_string
                  name cook (Codecs m);
      match decoded with
      | Err err => mret (session, Some err)
      | Ok id =>
          let session := sessions.set_ID session id in
          '(session, err) ← load m session;
          match err with
          | None => mret (sessions.set_IsNew session false, None)
          | Some _ => mret (session, None)
          end
      end
  | Err _ => mret (session, None)
  end.

(** [m.Save(r, w, session)]: the error, and the session and the response
    as the call leaves them. *)
Definition Save (m : MongoDBStore) (r : http.Request) (w : http.ResponseWriter)
  (session : sessions.Session)
  : M (option error * sessions.Session * http.ResponseWriter) :=
  if (sessions.MaxAge (sessions.Opts session) <? 0)%Z then
    err ← delete m session;
    match err with
    | Some err => mret (Some err, session, w)
    | None =>
        w ← call_SetToken m w (sessions.Name session) "" (sessions.Opts session);
        mret (None, session, w)
    end
  else
    session ← (if decide (sessions.ID session = "")
               then id ← NewObjectID;
                    mret (sessions.set_ID session (primitive.Hex id))
               else mret session);
    err ← upsert m session;
    match err with
    | Some err => mret (Some err, session, w)
    | None =>
        encoded ← securecookie.EncodeMulti (sessions.Name session)
                    (PString (sessions.ID session)) (Codecs m);
        match encoded with
        | Err err => mret (Some err, session, w)
        | Ok encoded =>
            w ← call_SetToken m w (sessions.Name session) encoded
                  (sessions.Opts session);
            mret (None, session, w)
        end
    end.

End store.

(** ** Vocabulary of the properties *)

(** A fresh session, as [New] makes one before it looks at the request: no
    identifier, no values, the store's options, is-new set. *)
Definition fresh_session (m : MongoDBStore) (name : string) : sessions.Session :=
  {| sessions.ID := ""; sessions.Values := ∅;
     sessions.Opts :=
       {| sessions.Path := sessions.Path (Options m);
          sessions.Domain := sessions.Domain (Options m);
          sessions.MaxAge := sessions.MaxAge (Options m);
          sessions.Secure := sessions.Secure (Options m);
          sessions.HttpOnly := sessions.HttpOnly (Options m) |};
     sessions.IsNew := true; sessions.name := name |}.

(** The outcome of the driver's next round trip. *)
Definition next_failure (w : World) : option error :=
  match driver w with
  | [] => None
  | o :: _ => o
  end.

(** The calls made between two worlds. *)
Definition calls_since (before after : World) : list Call :=
  drop (length (calls before)) (calls after).

(** A call of the token transport's [SetToken]. *)
Definition is_SetToken (c : Call) : Prop :=
  match c with
  | SetToken_call _ _ _ => True
  | _ => False
  end.

(** The session and the world when [Save] reaches [upsert]: an empty
    identifier has been replaced by the generator's next one. *)
Definition minted (session : sessions.Session) (w : World)
  : sessions.Session * World :=
  if decide (sessions.ID session = "")
  then (sessions.set_ID session (primitive.Hex (objectIDs w 0%nat)), (NewObjectID w).2)
  else (session, w).

(** The four ways [upsert] ends: at the identifier, at the [modified]
    value, at the encoding of the values, or with the outcome of
    [ReplaceOne]. *)
Inductive upsert_outcome `{securecookie.Sealing} (m : MongoDBStore)
  (session : sessions.Session) (w : World) : option error -> World -> Prop :=
| upsert_invalid_id e :
    primitive.ObjectIDFromHex (sessions.ID session) = Err e ->
    upsert_outcome m session w (Some ErrInvalidId) w
| upsert_invalid_modified id val :
    primitive.ObjectIDFromHex (sessions.ID session) = Ok id ->
    sessions.Values session !! AString "modified" = Some val ->
    assert_Time val = None ->
    upsert_outcome m session w (Some ErrInvalidModified) w
| upsert_unencodable id modified e :
    primitive.ObjectIDFromHex (sessions.ID session) = Ok id ->
    (modified_of session w).1 = Ok modified ->
    securecookie.encode_chain (clock w) (sessions.Name session)
      (PValues (sessions.Values session)) (Codecs m) = Err e ->
    upsert_outcome m session w (Some e) w
| upsert_replaced id modified data err w' :
    primitive.ObjectIDFromHex (sessions.ID session) = Ok id ->
    (modified_of session w).1 = Ok modified ->
    securecookie.encode_chain (clock w) (sessions.Name session)
      (PValues (sessions.Values session)) (Codecs m) = Ok data ->
    mongo.ReplaceOne id {| ID := id; Data := data; Modified := modified |} w
    = (err, w') ->
    upsert_outcome m session w err w'.

(** The document [upsert] hands to [ReplaceOne] for a session: keyed by the
    parsed identifier, holding the encoded values and the [modified] time. *)
Definition prepared `{securecookie.Sealing} (m : MongoDBStore)
  (session : sessions.Session) (w : World) (id : primitive.ObjectID)
  (doc : Session) : Prop :=
  primitive.ObjectIDFromHex (sessions.ID session) = Ok id /\
  ID doc = id /\
  (modified_of session w).1 = Ok (Modified doc) /\
  securecookie.encode_chain (clock w) (sessions.Name session)
    (PValues (sessions.Values session)) (Codecs m) = Ok (Data doc).

(** The four ways the non-negative branch of [Save] ends, for the session
    and the world that reach [upsert]: the error, the response, the calls
    made and the documents left.  The document sent and stored is the
    prepared one as the driver marshals it. *)
Inductive save_outcome `{securecookie.Sealing} (m : MongoDBStore)
  (rw : http.ResponseWriter) (session : sessions.Session) (w : World)
  : option error -> http.ResponseWriter -> list Call
    -> gmap primitive.ObjectID Session -> Prop :=
| save_stopped e :
    (* upsert gave up before calling the driver *)
    upsert m session w = (Some e, w) ->
    save_outcome m rw session w (Some e) rw [] (collection w)
| save_refused id doc e :
    (* the driver's round trip failed *)
    prepared m session w id doc ->
    next_failure w = Some e ->
    save_outcome m rw session w (Some e) rw
      [ReplaceOne_call id (mongo.marshal doc) (Some e)] (collection w)
| save_unannounced id doc e :
    (* the document is stored, the identifier does not encode *)
    prepared m session w id doc ->
    next_failure w = None ->
    securecookie.encode_chain (clock w) (sessions.Name session)
      (PString (sessions.ID session)) (Codecs m) = Err e ->
    save_outcome m rw session w (Some e) rw
      [ReplaceOne_call id (mongo.marshal doc) None]
      (<[id := mongo.marshal doc]> (collection w))
| save_announced id doc token :
    (* the document is stored and the token is set *)
    prepared m session w id doc ->
    next_failure w = None ->
    securecookie.encode_chain (clock w) (sessions.Name session)
      (PString (sessions.ID session)) (Codecs m) = Ok token ->
    save_outcome m rw session w None
      (SetToken (Token m) rw (sessions.Name session) token (sessions.Opts session))
      [ReplaceOne_call id (mongo.marshal doc) None;
       SetToken_call (sessions.Name session) token (sessions.Opts session)]
      (<[id := mongo.marshal doc]> (collection w)).

(** ** A small concrete instance

    A sealing that is easy to read: an identifier is sealed as ["id:"]
    followed by itself, and three values mappings have a token each.  It
    ignores keys, time and name; it serves to run the store on examples. *)

Definition foo_bar : gmap any any := {[ AString "foo" := AString "bar" ]}.

Definition pinned : gmap any any := {[ AString "modified" := ATime 42 ]}.


Definition demo_seal (sc : securecookie.SecureCookie) (now : time.Time)
  (name : string) (value : payload) : result string :=
  match value with
  | PString s => Ok ("id:" ++ s)%string
  | PValues m =>
      if decide (m = foo_bar) then Ok "values:foo_bar"
      else if decide (m = pinned) then Ok "values:pinned"
      else if decide (m = ∅) then Ok "values:empty"
      else Err (ErrCodec "securecookie: the value is too long")
  end.

Definition demo_unseal (sc : securecookie.SecureCookie) (now : time.Time)
  (name value : string) : result payload :=
  match value with
  | String "i" (String "d" (String ":" s)) => Ok (PString s)
  | _ =>
      if String.eqb value "values:foo_bar" then Ok (PValues foo_bar)
      else if String.eqb value "values:pinned" then Ok (PValues pinned)
      else if String.eqb value "values:empty" then Ok (PValues ∅)
      else Err (ErrCodec "securecookie: the value is not valid")
  end.

Definition demo_sealing : securecookie.Sealing :=
  {| securecookie.seal := demo_seal; securecookie.unseal := demo_unseal |}.

(** A codec of another type: it encodes nothing and decodes nothing, and
    has a window of 60 seconds. *)
Definition deaf_codec : securecookie.Custom :=
  {| securecookie.window := 60;
     securecookie.customEncode := fun _ _ _ => Err (ErrCodec "deaf");
     securecookie.customDecode := fun _ _ _ => Err (ErrCodec "deaf") |}.

(** The store [NewMongoDBStore(c, 3600, false, []byte("k"))] builds. *)
Definition demo_store : MongoDBStore :=
  {| Codecs := [securecookie.SecureCookiePtr
                  (securecookie.SetMaxAge (securecookie.New ["k"%char] []) 3600)];
     Options := {| sessions.Path := "/"; sessions.Domain := "";
                   sessions.MaxAge := 3600; sessions.Secure := false;
                   sessions.HttpOnly := false |};
     Token := CookieToken |}.

(** The same store with a codec of another type put first. *)
Definition mixed_store : MongoDBStore :=
  {| Codecs := securecookie.OtherCodec deaf_codec :: Codecs demo_store;
     Options := Options demo_store;
     Token := CookieToken |}.

Definition demo_oid : primitive.ObjectID :=
  primitive.OID "093" "027" "222" "001" "171" "205" "239" "000" "017" "034" "051" "068".

(** An empty collection, a driver that answers, the clock at 1000. *)
Definition demo_world : World :=
  {| collection := ∅; driver := []; clock := 1000;
     objectIDs := fun _ => demo_oid; calls := [] |}.

(** The same, with a driver whose next round trip fails. *)
Definition offline_world : World :=
  {| collection := ∅; driver := [Some (ErrDriver "server selection timeout")];
     clock := 1000; objectIDs := fun _ => demo_oid; calls := [] |}.

Definition no_cookies : http.Request := {| http.Cookies := [] |}.

Definition blank_response : http.ResponseWriter := {| http.SetCookies := [] |}.

(** A session as [New] returns it for a request without cookie, then given
    values by the application. *)
Definition session_with (values : gmap any any) (maxAge : Z) : sessions.Session :=
  {| sessions.ID := ""; sessions.Values := values;
     sessions.Opts := {| sessions.Path := "/"; sessions.Domain := "";
                         sessions.MaxAge := maxAge; sessions.Secure := false;
                         sessions.HttpOnly := false |};
     sessions.IsNew := true; sessions.name := "session-key" |}.

(** Requests that carry a cookie for ["session-key"]: the token of
    [demo_oid], the token of an identifier that is no hexadecimal string,
    and a token no codec sealed. *)
Definition returning : http.Request :=
  {| http.Cookies := [("session-key", "id:5d1bde01abcdef0011223344")] |}.

Definition stale : http.Request :=
  {| http.Cookies := [("session-key", "id:zz")] |}.

Definition tampered : http.Request :=
  {| http.Cookies := [("session-key", "id_5d1bde01abcdef0011223344")] |}.

(** A world whose collection holds, under [demo_oid], a document no codec
    of [demo_store] decodes. *)
Definition corrupt_world : World :=
  {| collection := {[ demo_oid := {| ID := demo_oid; Data := "values:f00_bar";
                                     Modified := 7 |} ]};
     driver := []; clock := 1000; objectIDs := fun _ => demo_oid; calls := [] |}.

(** [Save] by [demo_store] of a fresh session with the given values and
    max-age. *)
Definition demo_save (values : gmap any any) (maxAge : Z) (w : World)
  : option error * sessions.Session * http.ResponseWriter * World :=
  Save (H := demo_sealing) demo_store no_cookies blank_response
    (session_with values maxAge) w.

(** [New] by [demo_store] for the session name of the examples. *)
Definition demo_new (r : http.Request) (w : World)
  : sessions.Session * option error * World :=
  New (H := demo_sealing) demo_store r "session-key" w.

(** Unfold the state passing of one step. *)
Ltac step := unfold mbind, M_bind, mret, M_ret, log, time_Now; simpl.

(** A session saved before under [demo_oid], as a later request holds it. *)
Definition saved_session (values : gmap any any) (maxAge : Z) : sessions.Session :=
  sessions.set_ID (session_with values maxAge) "5d1bde01abcdef0011223344".

(** The document of [demo_oid] that holds the values [foo_bar]. *)
Definition demo_document : Session :=
  {| ID := demo_oid; Data := "values:foo_bar"; Modified := 1000 |}.

(** A world whose collection holds [demo_document], with a driver that
    answers, and the same with a driver whose next round trip fails. *)
Definition stocked_world : World :=
  {| collection := {[ demo_oid := demo_document ]}; driver := []; clock := 2000;
     objectIDs := fun _ => demo_oid; calls := [] |}.

Definition stocked_offline_world : World :=
  {| collection := {[ demo_oid := demo_document ]};
     driver := [Some (ErrDriver "server selection timeout")]; clock := 2000;
     objectIDs := fun _ => demo_oid; calls := [] |}.

(** A call of the driver's [FindOne]. *)
Definition is_FindOne (c : Call) : Prop :=
  match c with
  | FindOne_call _ => True
  | _ => False
  end.

(** The store [NewMongoDBStore(c, 3600, false)] builds when it is given no
    key at all, and the store [NewMongoDBStore(c, -1, false, []byte("k"))]
    builds. *)
Definition keyless_store : MongoDBStore :=
  {| Codecs := []; Options := Options demo_store; Token := CookieToken |}.

Definition expired_store : MongoDBStore :=
  {| Codecs := [securecookie.SecureCookiePtr
                  (securecookie.SetMaxAge (securecookie.New ["k"%char] []) (-1))];
     Options := {| sessions.Path := "/"; sessions.Domain := "";
                   sessions.MaxAge := -1; sessions.Secure := false;
                   sessions.HttpOnly := false |};
     Token := CookieToken |}.

(** A session whose identifier is not the hexadecimal form of an
    ObjectID, and the key of another document. *)
Definition misnamed_session : sessions.Session :=
  sessions.set_ID (session_with foo_bar 3600) "zz".

Definition other_oid : primitive.ObjectID :=
  primitive.OID "001" "001" "001" "001" "001" "001" "001" "001" "001" "001" "001" "001".

(** * Properties *)

(** ** Hexadecimal identifiers *)

(** The two digits [Encode] writes for a byte are read back by
    [fromHexChar] as the halves of that byte. *)
Lemma hex_digits_of_byte (v : byte) :
  exists a b,
    hex.fromHexChar (hex.hexdigit (N.shiftr (N_of_ascii v) 4)) = Some a /\
    hex.fromHexChar (hex.hexdigit (N.land (N_of_ascii v) 15)) = Some b /\
    ascii_of_N (N.lor (N.shiftl a 4) b) = v.
Proof.
  destruct v as [[] [] [] [] [] [] [] []];
    eexists _, _; repeat split; vm_compute; reflexivity.
Qed.

Lemma hex_Decode_Encode (src : list byte) :
  hex.Decode (hex.Encode src) = Ok src.
Proof.
  induction src as [|v src IH]; [reflexivity|].
  destruct (hex_digits_of_byte v) as (a & b & Ha & Hb & Hv).
  cbn [hex.Encode hex.Decode]. rewrite Ha, Hb, IH, Hv. reflexivity.
Qed.

Lemma hex_DecodeString_EncodeToString (src : list byte) :
  hex.DecodeString (hex.EncodeToString src) = Ok src.
Proof.
  unfold hex.DecodeString, hex.EncodeToString.
  rewrite list_ascii_of_string_of_list_ascii. apply hex_Decode_Encode.
Qed.

Lemma hex_Encode_length (src : list byte) :
  length (hex.Encode src) = (2 * length src)%nat.
Proof. induction src as [|v src IH]; simpl; lia. Qed.

Lemma hex_Encode_digits (src : list byte) :
  Forall hex.is_hex_digit (hex.Encode src).
Proof.
  induction src as [|v src IH]; [constructor|].
  destruct (hex_digits_of_byte v) as (a & b & Ha & Hb & _).
  cbn [hex.Encode]. repeat constructor; unfold hex.is_hex_digit; eauto.
Qed.

Lemma string_length_of_list (l : list byte) :
  String.length (string_of_list_ascii l) = length l.
Proof. induction l as [|c l IH]; simpl; congruence. Qed.

(** [ObjectIDFromHex] inverts [Hex]. *)
Lemma ObjectIDFromHex_Hex (id : primitive.ObjectID) :
  primitive.ObjectIDFromHex (primitive.Hex id) = Ok id.
Proof.
  unfold primitive.ObjectIDFromHex, primitive.Hex.
  rewrite hex_DecodeString_EncodeToString. destruct id; reflexivity.
Qed.

Lemma Hex_length (id : primitive.ObjectID) :
  String.length (primitive.Hex id) = 24%nat.
Proof.
  unfold primitive.Hex, hex.EncodeToString.
  rewrite string_length_of_list, hex_Encode_length. destruct id; reflexivity.
Qed.

Lemma Hex_digits (id : primitive.ObjectID) :
  Forall hex.is_hex_digit (list_ascii_of_string (primitive.Hex id)).
Proof.
  unfold primitive.Hex, hex.EncodeToString.
  rewrite list_ascii_of_string_of_list_ascii. apply hex_Encode_digits.
Qed.

(** The empty identifier is the hexadecimal form of no bytes, which is not
    twelve. *)
Lemma ObjectIDFromHex_empty :
  primitive.ObjectIDFromHex "" = Err ErrInvalidHex.
Proof. reflexivity. Qed.

(** An identifier that parses is never empty. *)
Lemma ObjectIDFromHex_nonempty (s : string) (id : primitive.ObjectID) :
  primitive.ObjectIDFromHex s = Ok id -> s <> "".
Proof. intros Hs ->. discriminate Hs. Qed.

(** ** Chains of codecs *)

Section chains.
Context `{securecookie.Sealing}.

Lemma encode_loop_Ok now name value codecs errors token :
  securecookie.encode_loop now name value codecs errors = Ok token ->
  exists codec, codec ∈ codecs /\ securecookie.Encode codec now name value = Ok token.
Proof.
  revert errors. induction codecs as [|c codecs IH]; intros errors; simpl.
  - discriminate.
  - destruct (securecookie.Encode c now name value) as [t|e] eqn:Hc.
    + intros [= ->]. exists c. split; [left | assumption].
    + intros Hrest. destruct (IH _ Hrest) as (c' & Hin & Hc').
      exists c'. split; [by right | assumption].
Qed.

Lemma encode_chain_Ok now name value codecs token :
  securecookie.encode_chain now name value codecs = Ok token ->
  exists codec, codec ∈ codecs /\ securecookie.Encode codec now name value = Ok token.
Proof.
  unfold securecookie.encode_chain. destruct codecs as [|c codecs]; [discriminate|].
  apply encode_loop_Ok.
Qed.

(** The loop returns the value of its first codec that decodes; when all
    codecs that decode agree, that is the value of any of them. *)
Lemma decode_loop_agree {A : Type} (into : securecookie.Codec -> result A)
  codecs errors codec a :
  codec ∈ codecs -> into codec = Ok a ->
  (forall codec' a', codec' ∈ codecs -> into codec' = Ok a' -> a' = a) ->
  securecookie.decode_loop into codecs errors = Ok a.
Proof.
  revert errors. induction codecs as [|c codecs IH]; intros errors Hin Hok Hagree.
  - by apply elem_of_nil in Hin.
  - simpl. destruct (into c) as [a'|e] eqn:Hc.
    + f_equal. apply (Hagree c); [left | assumption].
    + apply elem_of_cons in Hin as [->|Hin]; [congruence|].
      apply IH; [assumption..|].
      intros c' a' Hin'. apply Hagree. by right.
Qed.

(** The loop fails exactly when every codec fails. *)
Lemma decode_loop_Err {A : Type} (into : securecookie.Codec -> result A)
  codecs errors :
  Forall (fun codec => exists e, into codec = Err e) codecs ->
  exists errors', securecookie.decode_loop into codecs errors = Err (MultiError errors').
Proof.
  intros Hall. revert errors.
  induction Hall as [|c codecs [e Hc] _ IH]; intros errors; simpl.
  - by eexists.
  - rewrite Hc. apply IH.
Qed.

Lemma decode_chain_Err {A : Type}
  (into : securecookie.Codec -> time.Time -> string -> string -> result A)
  now name value codecs :
  Forall (fun codec => exists e, into codec now name value = Err e) codecs ->
  exists e, securecookie.decode_chain into now name value codecs = Err e.
Proof.
  intros Hall. unfold securecookie.decode_chain.
  destruct codecs as [|c codecs]; [by eexists|].
  destruct (decode_loop_Err (fun codec => into codec now name value)
              (c :: codecs) [] Hall) as [errors' Herr].
  by eexists.
Qed.

(** What a faithful chain seals as an identifier, it opens as that
    identifier. *)
Lemma faithful_chain_string codecs sealed opened name id token :
  securecookie.faithful codecs sealed opened ->
  securecookie.encode_chain sealed name (PString id) codecs = Ok token ->
  securecookie.decode_chain securecookie.into_string opened name token codecs = Ok id.
Proof.
  intros Hfaithful Henc.
  destruct (encode_chain_Ok _ _ _ _ _ Henc) as (c & Hin & Hc).
  unfold securecookie.decode_chain.
  destruct codecs as [|c0 codecs]; [by apply elem_of_nil in Hin|].
  apply decode_loop_agree with (codec := c); [assumption| |].
  - unfold securecookie.into_string.
    destruct (Hfaithful c c name _ _ Hin Hin Hc) as [-> _]. reflexivity.
  - intros c' id' Hin'. unfold securecookie.into_string.
    destruct (securecookie.Decode c' opened name token) as [[s|m]|e] eqn:Hc';
      [|discriminate..].
    intros [= <-].
    destruct (Hfaithful c c' name _ _ Hin Hin' Hc) as [_ Honly].
    by specialize (Honly _ Hc') as [= ->].
Qed.

(** What a faithful chain seals as a values mapping, it opens as that
    mapping, added to the destination. *)
Lemma faithful_chain_values codecs sealed opened name values dst token :
  securecookie.faithful codecs sealed opened ->
  securecookie.encode_chain sealed name (PValues values) codecs = Ok token ->
  securecookie.decode_chain (securecookie.into_values dst) opened name token codecs
  = Ok (values ∪ dst).
Proof.
  intros Hfaithful Henc.
  destruct (encode_chain_Ok _ _ _ _ _ Henc) as (c & Hin & Hc).
  unfold securecookie.decode_chain.
  destruct codecs as [|c0 codecs]; [by apply elem_of_nil in Hin|].
  apply decode_loop_agree with (codec := c); [assumption| |].
  - unfold securecookie.into_values.
    destruct (Hfaithful c c name _ _ Hin Hin Hc) as [-> _]. reflexivity.
  - intros c' m' Hin'. unfold securecookie.into_values.
    destruct (securecookie.Decode c' opened name token) as [[s|m]|e] eqn:Hc';
      [discriminate| |discriminate].
    intros [= <-].
    destruct (Hfaithful c c' name _ _ Hin Hin' Hc) as [_ Honly].
    by specialize (Honly _ Hc') as [= ->].
Qed.

End chains.

(** ** The driver and the steps of the store *)

Lemma calls_since_app (before after : World) (new : list Call) :
  calls after = calls before ++ new -> calls_since before after = new.
Proof. unfold calls_since. intros ->. apply drop_app_length. Qed.

(** [ReplaceOne] fails as the round trip does and then changes no document;
    otherwise it stores the marshalled document under its key.  Either way
    it is recorded as one call. *)
Lemma ReplaceOne_run id doc w err w' :
  mongo.ReplaceOne id doc w = (err, w') ->
  err = next_failure w /\
  calls w' = calls w ++ [ReplaceOne_call id (mongo.marshal doc) err] /\
  clock w' = clock w /\
  collection w' = match err with
                  | Some _ => collection w
                  | None => <[id := mongo.marshal doc]> (collection w)
                  end.
Proof.
  unfold mongo.ReplaceOne, mongo.roundTrip, mongo.put, next_failure. step.
  destruct (driver w) as [|[e|] rest]; simpl; intros [= <- <-]; simpl; auto.
Qed.

(** [DeleteOne] likewise, removing the document. *)
Lemma DeleteOne_run id w err w' :
  mongo.DeleteOne id w = (err, w') ->
  err = next_failure w /\
  calls w' = calls w ++ [DeleteOne_call id err] /\
  clock w' = clock w /\
  collection w' = match err with
                  | Some _ => collection w
                  | None => base.delete id (collection w)
                  end.
Proof.
  unfold mongo.DeleteOne, mongo.roundTrip, mongo.remove, next_failure. step.
  destruct (driver w) as [|[e|] rest]; simpl; intros [= <- <-]; simpl; auto.
Qed.

(** [FindOne] returns the round trip's error, or the document of that key,
    or [ErrNoDocuments]; it changes neither the documents nor the clock. *)
Lemma FindOne_run id w :
  (mongo.FindOne id w).1 =
    match next_failure w with
    | Some e => Err e
    | None => match collection w !! id with
              | Some doc => Ok doc
              | None => Err ErrNoDocuments
              end
    end /\
  clock (mongo.FindOne id w).2 = clock w /\
  collection (mongo.FindOne id w).2 = collection w.
Proof.
  unfold mongo.FindOne, mongo.roundTrip, next_failure. step.
  destruct (driver w) as [|[e|] rest]; simpl; [|auto|];
    destruct (collection w !! id); auto.
Qed.

Section steps.
Context `{securecookie.Sealing}.

(** [modified_of] reads the world and leaves it. *)
Lemma modified_of_world session w : (modified_of session w).2 = w.
Proof.
  unfold modified_of.
  destruct (sessions.Values session !! AString "modified") as [val|];
    [destruct (assert_Time val)|]; reflexivity.
Qed.

Lemma upsert_cases m session w err w' :
  upsert m session w = (err, w') -> upsert_outcome m session w err w'.
Proof.
  unfold upsert.
  destruct (primitive.ObjectIDFromHex (sessions.ID session)) as [id|e] eqn:Hid.
  2: { intros [= <- <-]. by eapply upsert_invalid_id. }
  unfold mbind, M_bind.
  destruct (modified_of session w) as [modified w1] eqn:Hm.
  assert (w1 = w) as -> by (rewrite <- (modified_of_world session w), Hm; reflexivity).
  destruct modified as [modified|e].
  2: { intros [= <- <-]. revert Hm. unfold modified_of.
       destruct (sessions.Values session !! AString "modified") as [val|] eqn:Hval;
         [|discriminate].
       destruct (assert_Time val) eqn:Hassert; [discriminate|].
       intros [= <-]. by eapply upsert_invalid_modified. }
  unfold securecookie.EncodeMulti.
  destruct (securecookie.encode_chain _ _ _ _) as [data|e] eqn:Henc.
  - intros Hreplace. eapply upsert_replaced; eauto. by rewrite Hm.
  - intros [= <- <-]. eapply upsert_unencodable; eauto. by rewrite Hm.
Qed.

(** The non-negative branch of [Save], step by step. *)
Lemma Save_keep m r rw session w :
  (0 <= sessions.MaxAge (sessions.Opts session))%Z ->
  Save m r rw session w =
    let '(s1, w1) := minted session w in
    let '(err, w2) := upsert m s1 w1 in
    match err with
    | Some e => (Some e, s1, rw, w2)
    | None =>
        match securecookie.encode_chain (clock w2) (sessions.Name s1)
                (PString (sessions.ID s1)) (Codecs m) with
        | Err e => (Some e, s1, rw, w2)
        | Ok token =>
            (None, s1,
             SetToken (Token m) rw (sessions.Name s1) token (sessions.Opts s1),
             (log (SetToken_call (sessions.Name s1) token (sessions.Opts s1)) w2).2)
        end
    end.
Proof.
  intros Hage. unfold Save, minted.
  apply Z.ltb_ge in Hage. rewrite Hage.
  unfold mbind, M_bind.
  destruct (decide (sessions.ID session = "")); simpl;
    match goal with |- context [upsert m ?s ?w0] => destruct (upsert m s w0) as [[failure|] w2] end;
    try reflexivity;
    unfold securecookie.EncodeMulti, call_SetToken, mbind, M_bind, mret, M_ret;
    destruct (securecookie.encode_chain _ _ _ _); reflexivity.
Qed.

(** Minting reads the generator only. *)
Lemma minted_frame session w :
  clock (minted session w).2 = clock w /\
  calls (minted session w).2 = calls w /\
  collection (minted session w).2 = collection w /\
  driver (minted session w).2 = driver w.
Proof. unfold minted. destruct (decide _); simpl; auto. Qed.

End steps.

(** ** Loading: [New] *)

Section loading.
Context `{securecookie.Sealing}.

(** [load], step by step. *)
Lemma load_run m session w :
  load m session w =
    match primitive.ObjectIDFromHex (sessions.ID session) with
    | Err _ => ((session, Some ErrInvalidId), w)
    | Ok id =>
        match (mongo.FindOne id w).1 with
        | Err e => ((session, Some e), (mongo.FindOne id w).2)
        | Ok doc =>
            match securecookie.decode_chain
                    (securecookie.into_values (sessions.Values session))
                    (clock w) (sessions.Name session) (Data doc) (Codecs m) with
            | Err e => ((session, Some e), (mongo.FindOne id w).2)
            | Ok values =>
                ((sessions.set_Values session values, None), (mongo.FindOne id w).2)
            end
        end
    end.
Proof.
  unfold load.
  destruct (primitive.ObjectIDFromHex (sessions.ID session)) as [id|e]; [|reflexivity].
  unfold mbind, M_bind.
  destruct (FindOne_run id w) as (_ & Hclock & _).
  destruct (mongo.FindOne id w) as [[doc|e] w1]; simpl in *; [|reflexivity].
  unfold securecookie.DecodeMulti. rewrite Hclock.
  destruct (securecookie.decode_chain _ _ _ _ _); reflexivity.
Qed.

(** [New], step by step. *)
Lemma New_run m r name w :
  New m r name w =
    match GetToken (Token m) r name with
    | Err _ => ((fresh_session m name, None), w)
    | Ok cook =>
        match securecookie.decode_chain securecookie.into_string
                (clock w) name cook (Codecs m) with
        | Err e => ((fresh_session m name, Some e), w)
        | Ok id =>
            let '((session, err), w') :=
              load m (sessions.set_ID (fresh_session m name) id) w in
            match err with
            | None => ((sessions.set_IsNew session false, None), w')
            | Some _ => ((session, None), w')
            end
        end
    end.
Proof.
  unfold New. destruct (GetToken (Token m) r name) as [cook|e]; [|reflexivity].
  unfold mbind, M_bind, securecookie.DecodeMulti.
  destruct (securecookie.decode_chain _ _ _ _ _) as [id|e]; [|reflexivity].
  change (sessions.set_ID _ id) with (sessions.set_ID (fresh_session m name) id).
  destruct (load m _ w) as [[session [e|]] w']; reflexivity.
Qed.

(** C3, as amended: when the cookie token decodes to an identifier that
    does not parse into a 12-byte key, [New] returns no error ([load]'s
    "invalid session id" is dropped, like every error of [load]); the
    session it returns has is-new set and no values, and carries the decoded
    identifier.  The world is left as it was: the driver is not called. *)
Theorem New_unparsable_identifier m r name w cook id e :
  GetToken (Token m) r name = Ok cook ->
  securecookie.decode_chain securecookie.into_string (clock w) name cook (Codecs m)
  = Ok id ->
  primitive.ObjectIDFromHex id = Err e ->
  New m r name w = ((sessions.set_ID (fresh_session m name) id, None), w).
Proof.
  intros Hcook Hid Hparse. rewrite New_run, Hcook, Hid, load_run.
  simpl. rewrite Hparse. reflexivity.
Qed.

(** C4: when the cookie token decodes to an identifier that parses, and the
    collection has no document of that key or the document's data decodes
    with no codec, [New] returns no error and a session with is-new set and
    no values (it carries the decoded identifier); this holds whether the
    driver's round trip fails or not. *)
Theorem New_swallows_load_failure m r name w cook id oid :
  GetToken (Token m) r name = Ok cook ->
  securecookie.decode_chain securecookie.into_string (clock w) name cook (Codecs m)
  = Ok id ->
  primitive.ObjectIDFromHex id = Ok oid ->
  (collection w !! oid = None \/
   exists doc e,
     collection w !! oid = Some doc /\
     securecookie.decode_chain (securecookie.into_values ∅) (clock w) name
       (Data doc) (Codecs m) = Err e) ->
  (New m r name w).1 = (sessions.set_ID (fresh_session m name) id, None) /\
  sessions.IsNew (New m r name w).1.1 = true /\
  sessions.Values (New m r name w).1.1 = ∅ /\
  (New m r name w).1.2 = None.
Proof.
  intros Hcook Hid Hparse Hdoc.
  assert ((New m r name w).1 = (sessions.set_ID (fresh_session m name) id, None)) as ->;
    [|by repeat split].
  rewrite New_run, Hcook, Hid, load_run. simpl. rewrite Hparse.
  destruct (FindOne_run oid w) as (-> & _ & _).
  destruct (next_failure w) as [failure|]; [reflexivity|].
  destruct Hdoc as [-> | (doc & e' & -> & ->)]; reflexivity.
Qed.

(** C5: when the request carries a token and every codec of the store fails
    to decode it, [New] returns an error together with a fresh session; when
    the token transport finds no token, [New] returns a fresh session and no
    error.  Neither touches the world. *)
Theorem New_undecodable_token m r name w :
  (forall cook,
      GetToken (Token m) r name = Ok cook ->
      Forall (fun codec =>
                exists e, securecookie.into_string codec (clock w) name cook = Err e)
             (Codecs m) ->
      exists e, New m r name w = ((fresh_session m name, Some e), w)) /\
  (forall e,
      GetToken (Token m) r name = Err e ->
      New m r name w = ((fresh_session m name, None), w)).
Proof.
  split.
  - intros cook Hcook Hall.
    destruct (decode_chain_Err securecookie.into_string _ _ _ _ Hall) as [e He].
    exists e. rewrite New_run, Hcook, He. reflexivity.
  - intros e He. rewrite New_run, He. reflexivity.
Qed.

End loading.

(** ** Saving: [Save] *)

Section saving.
Context `{securecookie.Sealing}.

(** Every run of the non-negative branch of [Save] ends in one of the four
    ways of [save_outcome]; the session comes back with the identifier it
    had when it reached [upsert], and the clock is not touched. *)
Lemma Save_keep_outcome m r rw session w err session' rw' w' :
  (0 <= sessions.MaxAge (sessions.Opts session))%Z ->
  Save m r rw session w = (err, session', rw', w') ->
  session' = (minted session w).1 /\
  clock w' = clock w /\
  save_outcome m rw (minted session w).1 (minted session w).2
    err rw' (calls_since w w') (collection w').
Proof.
  intros Hage Hsave. rewrite Save_keep in Hsave by assumption.
  destruct (minted_frame session w) as (Hclock & Hcalls & Hcoll & Hdriver).
  destruct (minted session w) as [s1 w1]. simpl in *.
  destruct (upsert m s1 w1) as [uerr w2] eqn:Hupsert.
  destruct (upsert_cases _ _ _ _ _ Hupsert)
    as [e Hid|id val Hid Hval Hassert|id t e Hid Ht Henc|id t data uerr w2 Hid Ht Henc Hreplace].
  1-3: injection Hsave as <- <- <- <-;
       rewrite (calls_since_app w w1 []) by (by rewrite app_nil_r);
       split; [reflexivity|split; [assumption|]];
       by apply save_stopped.
  destruct (ReplaceOne_run _ _ _ _ _ Hreplace) as (-> & Hcalls2 & Hclock2 & Hcoll2).
  assert (prepared m s1 w1 id {| ID := id; Data := data; Modified := t |})
    as Hprepared by (by repeat split).
  destruct (next_failure w1) as [e|] eqn:Hnext.
  - injection Hsave as <- <- <- <-.
    rewrite (calls_since_app w w2 [ReplaceOne_call id _ (Some e)])
      by (by rewrite Hcalls2, Hcalls).
    rewrite Hcoll2.
    split; [reflexivity|split; [congruence|]].
    by eapply save_refused.
  - rewrite Hclock2 in Hsave.
    destruct (securecookie.encode_chain (clock w1) _ _ _) as [token|e] eqn:Hcookie;
      injection Hsave as <- <- <- <-.
    + rewrite (calls_since_app w _
                 [ReplaceOne_call id _ None;
                  SetToken_call (sessions.Name s1) token (sessions.Opts s1)])
        by (simpl; rewrite Hcalls2, Hcalls, <- app_assoc; reflexivity).
      simpl. rewrite Hcoll2.
      split; [reflexivity|split; [congruence|]].
      by eapply save_announced.
    + rewrite (calls_since_app w w2 [ReplaceOne_call id _ None])
        by (by rewrite Hcalls2, Hcalls).
      rewrite Hcoll2.
      split; [reflexivity|split; [congruence|]].
      by eapply save_unannounced.
Qed.

(** C2, as amended: for a session that was never saved (empty identifier),
    [Save] with a negative max-age returns the "invalid session id" error,
    the first time and every time after: the session, the response and the
    world (its documents, and the calls made) are left exactly as they were,
    so no document is created and no cookie is cleared. *)
Theorem Save_negative_unsaved m r rw session w :
  sessions.ID session = "" ->
  (sessions.MaxAge (sessions.Opts session) < 0)%Z ->
  Save m r rw session w = (Some ErrInvalidId, session, rw, w).
Proof.
  intros Hid Hage. unfold Save, delete.
  apply Z.ltb_lt in Hage. rewrite Hage, Hid, ObjectIDFromHex_empty.
  reflexivity.
Qed.

(** C10: for a session with an empty identifier, [Save] with non-negative
    max-age returns the session with the generator's next identifier
    written into it and every other field (name, values, options, is-new)
    as it was, whatever [Save] returns: the assignment stands when an error
    comes back. *)
Theorem Save_assigns_identifier m r rw session w err session' rw' w' :
  sessions.ID session = "" ->
  (0 <= sessions.MaxAge (sessions.Opts session))%Z ->
  Save m r rw session w = (err, session', rw', w') ->
  sessions.ID session' = primitive.Hex (objectIDs w 0%nat) /\
  sessions.name session' = sessions.name session /\
  sessions.Values session' = sessions.Values session /\
  sessions.Opts session' = sessions.Opts session /\
  sessions.IsNew session' = sessions.IsNew session.
Proof.
  intros Hid Hage Hsave.
  destruct (Save_keep_outcome _ _ _ _ _ _ _ _ _ Hage Hsave) as (-> & _ & _).
  unfold minted. rewrite decide_True by assumption. by repeat split.
Qed.

End saving.

Section save_properties.
Context `{securecookie.Sealing}.

(** [upsert] hands a prepared document to [ReplaceOne]. *)
Lemma upsert_prepared m session w id doc :
  prepared m session w id doc ->
  upsert m session w = mongo.ReplaceOne id doc w.
Proof.
  intros (Hid & Hdoc & Ht & Henc). unfold upsert. rewrite Hid.
  unfold mbind, M_bind.
  pose proof (modified_of_world session w) as Hw.
  destruct (modified_of session w) as [t w1]. simpl in *. subst w1 t.
  unfold securecookie.EncodeMulti. rewrite Henc.
  destruct doc; simpl in *; subst; reflexivity.
Qed.

(** [upsert] returns the error of the values' encoding. *)
Lemma upsert_encode_error m session w id t e :
  primitive.ObjectIDFromHex (sessions.ID session) = Ok id ->
  (modified_of session w).1 = Ok t ->
  securecookie.encode_chain (clock w) (sessions.Name session)
    (PValues (sessions.Values session)) (Codecs m) = Err e ->
  upsert m session w = (Some e, w).
Proof.
  intros Hid Ht Henc. unfold upsert. rewrite Hid.
  unfold mbind, M_bind.
  pose proof (modified_of_world session w) as Hw.
  destruct (modified_of session w) as [t' w1]. simpl in *. subst w1 t'.
  unfold securecookie.EncodeMulti. rewrite Henc. reflexivity.
Qed.

(** Minting changes the identifier only. *)
Lemma minted_values session w :
  sessions.Values (minted session w).1 = sessions.Values session.
Proof. unfold minted. by destruct (decide _). Qed.


(** C6: in the non-negative branch, the error of a failing step (the
    [upsert] as a whole, and in it the encoding of the values and the
    [ReplaceOne] round trip; after it the encoding of the identifier) is the
    error [Save] returns; whenever [Save] returns an error the response is
    untouched and no call of [SetToken] was made; and a call of [SetToken]
    has, before it, a [ReplaceOne] that succeeded, whose document is in the
    collection. *)
Theorem Save_cookie_after_upsert m r rw session w err session' rw' w' :
  (0 <= sessions.MaxAge (sessions.Opts session))%Z ->
  Save m r rw session w = (err, session', rw', w') ->
  let s1 := (minted session w).1 in
  let w1 := (minted session w).2 in
  (forall e w2, upsert m s1 w1 = (Some e, w2) -> err = Some e) /\
  (forall id t e,
      primitive.ObjectIDFromHex (sessions.ID s1) = Ok id ->
      (modified_of s1 w1).1 = Ok t ->
      securecookie.encode_chain (clock w1) (sessions.Name s1)
        (PValues (sessions.Values s1)) (Codecs m) = Err e ->
      err = Some e) /\
  (forall id doc e,
      prepared m s1 w1 id doc -> next_failure w1 = Some e -> err = Some e) /\
  (forall e w2,
      upsert m s1 w1 = (None, w2) ->
      securecookie.encode_chain (clock w2) (sessions.Name s1)
        (PString (sessions.ID s1)) (Codecs m) = Err e ->
      err = Some e) /\
  (forall e, err = Some e ->
      rw' = rw /\ Forall (fun c => ~ is_SetToken c) (calls_since w w')) /\
  (forall i c, calls_since w w' !! i = Some c -> is_SetToken c ->
      err = None /\
      exists j id doc,
        (j < i)%nat /\
        calls_since w w' !! j = Some (ReplaceOne_call id doc None) /\
        collection w' !! id = Some doc).
Proof.
  intros Hage Hsave s1 w1.
  assert (forall e w2, upsert m s1 w1 = (Some e, w2) -> err = Some e) as Hupsert.
  { intros e w2 Hu. rewrite Save_keep in Hsave by assumption.
    subst s1 w1. destruct (minted session w) as [s1 w1]. simpl in *.
    rewrite Hu in Hsave. congruence. }
  destruct (Save_keep_outcome _ _ _ _ _ _ _ _ _ Hage Hsave) as (_ & _ & Hout).
  fold s1 w1 in Hout.
  split; [exact Hupsert|].
  split.
  { intros id t e Hid Ht Henc.
    apply (Hupsert e w1). by eapply upsert_encode_error. }
  split.
  { intros id doc e Hprepared Hnext.
    destruct (mongo.ReplaceOne id doc w1) as [rerr w2] eqn:Hreplace.
    destruct (ReplaceOne_run _ _ _ _ _ Hreplace) as (-> & _).
    apply (Hupsert e w2).
    by rewrite (upsert_prepared _ _ _ _ _ Hprepared), Hreplace, Hnext. }
  split.
  { intros e w2 Hu Hcookie. rewrite Save_keep in Hsave by assumption.
    subst s1 w1. destruct (minted session w) as [s1 w1]. simpl in *.
    rewrite Hu, Hcookie in Hsave. congruence. }
  inversion Hout as [e0 Hu Herr Hrw Hcalls Hcoll
                    |id doc e0 Hp Hnext Herr Hrw Hcalls Hcoll
                    |id doc e0 Hp Hnext Henc Herr Hrw Hcalls Hcoll
                    |id doc token Hp Hnext Henc Herr Hrw Hcalls Hcoll].
  1-3: split;
       [intros e _; split;
        [reflexivity
        |repeat first [apply Forall_nil_2 | apply Forall_cons_2; [simpl; tauto|]]]|];
       intros [|[|i]] c Hc Hset; simpl in Hc; rewrite ?lookup_nil in Hc;
       simplify_eq; simpl in *; tauto.
  split; [intros e [=]|].
  intros [|[|i]] c Hc Hset; simpl in Hc; rewrite ?lookup_nil in Hc;
    simplify_eq; simpl in *; try tauto.
  split; [reflexivity|].
  exists 0%nat, id, (mongo.marshal doc). split; [lia|]. split; [reflexivity|].
  apply lookup_insert_eq.
Qed.

End save_properties.

Section identifiers.
Context `{securecookie.Sealing}.

(** A session with an identifier reaches [upsert] as it is. *)
Lemma minted_nonempty session w :
  sessions.ID session <> "" -> minted session w = (session, w).
Proof. intros Hid. unfold minted. by rewrite decide_False. Qed.

(** C7: for a session with an empty identifier, [Save] with non-negative
    max-age assigns the hexadecimal form of the generator's next ObjectID:
    24 characters, all hexadecimal digits, parsing back to that 12-byte
    key.  The assignment comes before the upsert: the call is the same as
    [Save] on the session that already has this identifier, every
    [ReplaceOne] it makes is keyed by it, and when [Save] succeeds the
    collection holds a document under it. *)
Theorem Save_mints_identifier m r rw session w err session' rw' w' :
  sessions.ID session = "" ->
  (0 <= sessions.MaxAge (sessions.Opts session))%Z ->
  Save m r rw session w = (err, session', rw', w') ->
  let id := objectIDs w 0%nat in
  sessions.ID session' = primitive.Hex id /\
  String.length (sessions.ID session') = 24%nat /\
  Forall hex.is_hex_digit (list_ascii_of_string (sessions.ID session')) /\
  primitive.ObjectIDFromHex (sessions.ID session') = Ok id /\
  Save m r rw session w
  = Save m r rw (sessions.set_ID session (primitive.Hex id)) (NewObjectID w).2 /\
  (forall id' doc e,
      ReplaceOne_call id' doc e ∈ calls_since w w' -> id' = id /\ ID doc = id) /\
  (err = None -> exists doc, collection w' !! id = Some doc /\ ID doc = id).
Proof.
  intros Hempty Hage Hsave id.
  destruct (Save_keep_outcome _ _ _ _ _ _ _ _ _ Hage Hsave) as (Hsession & _ & Hout).
  assert (minted session w
          = (sessions.set_ID session (primitive.Hex id), (NewObjectID w).2)) as Hminted
    by (unfold minted; by rewrite decide_True).
  rewrite Hminted in Hsession, Hout. simpl in Hsession, Hout. subst session'.
  simpl.
  split; [reflexivity|].
  split; [apply Hex_length|].
  split; [apply Hex_digits|].
  split; [apply ObjectIDFromHex_Hex|].
  split.
  { rewrite !Save_keep by assumption. rewrite Hminted.
    rewrite minted_nonempty; [reflexivity|].
    simpl. apply (ObjectIDFromHex_nonempty _ id), ObjectIDFromHex_Hex. }
  assert (forall id' doc,
             prepared m (sessions.set_ID session (primitive.Hex id))
               (NewObjectID w).2 id' doc -> id' = id /\ ID doc = id) as Hkey.
  { intros id' doc (Hid & Hdoc & _). simpl in Hid.
    rewrite ObjectIDFromHex_Hex in Hid. by simplify_eq. }
  inversion Hout as [e0 Hu Herr Hrw Hcalls Hcoll
                    |id' doc e0 Hp Hnext Herr Hrw Hcalls Hcoll
                    |id' doc e0 Hp Hnext Henc Herr Hrw Hcalls Hcoll
                    |id' doc token Hp Hnext Henc Herr Hrw Hcalls Hcoll].
  - split; [intros ? ? ? Hin; by apply elem_of_nil in Hin|discriminate].
  - destruct (Hkey _ _ Hp) as [-> Hdoc].
    split; [|discriminate].
    intros ? ? ? Hin. apply list_elem_of_singleton in Hin. by simplify_eq.
  - destruct (Hkey _ _ Hp) as [-> Hdoc].
    split.
    + intros ? ? ? Hin. apply list_elem_of_singleton in Hin. by simplify_eq.
    + intros _. exists (mongo.marshal doc). split; [apply lookup_insert_eq|assumption].
  - destruct (Hkey _ _ Hp) as [-> Hdoc].
    split.
    + intros ? ? ? Hin. apply elem_of_cons in Hin as [Hin|Hin]; [by simplify_eq|].
      apply list_elem_of_singleton in Hin. discriminate.
    + intros _. exists (mongo.marshal doc). split; [apply lookup_insert_eq|assumption].
Qed.




End identifiers.

(** ** Saving, then loading *)

Section round_trip.
Context `{securecookie.Sealing}.

(** C1: let [Save] succeed on a session with non-negative max-age, and let
    a later request carry, under the session's name, the token [Save] gave
    to [SetToken].  If the store's codecs are faithful between the two
    times, the document is still in the collection and the driver answers,
    then [New] returns no error and a session whose values are exactly the
    values saved, whose is-new flag is false, and whose identifier is the
    saved one. *)
Theorem Save_New_round_trip m r rw session w session' rw' w'
    name token options r2 later :
  (0 <= sessions.MaxAge (sessions.Opts session))%Z ->
  Save m r rw session w = (None, session', rw', w') ->
  SetToken_call name token options ∈ calls_since w w' ->
  GetToken (Token m) r2 name = Ok token ->
  securecookie.faithful (Codecs m) (clock w) (clock later) ->
  (forall id, primitive.ObjectIDFromHex (sessions.ID session') = Ok id ->
              collection later !! id = collection w' !! id) ->
  next_failure later = None ->
  exists loaded later',
    New m r2 name later = ((loaded, None), later') /\
    sessions.Values loaded = sessions.Values session /\
    sessions.IsNew loaded = false /\
    sessions.ID loaded = sessions.ID session'.
Proof.
  intros Hage Hsave Hset Hcook Hfaithful Hkept Hanswers.
  destruct (Save_keep_outcome _ _ _ _ _ _ _ _ _ Hage Hsave) as (-> & _ & Hout).
  pose proof (minted_values session w) as Hvalues.
  destruct (minted_frame session w) as (Hclock & _).
  destruct (minted session w) as [s1 w1]. simpl in *.
  inversion Hout as [| | |id doc token' (Hid & Hdoc & Ht & Hdata) Hnext Htoken
                            Herr Hrw Hcalls Hcoll].
  rewrite <- Hcalls in Hset.
  apply elem_of_cons in Hset as [[=]|Hset].
  apply list_elem_of_singleton in Hset. injection Hset as -> -> ->.
  rewrite Hclock in Htoken, Hdata.
  pose proof (faithful_chain_string _ _ _ _ _ _ Hfaithful Htoken) as Hopen.
  pose proof (faithful_chain_values _ _ _ _ _ ∅ _ Hfaithful Hdata) as Hopen_values.
  assert (collection later !! id = Some (mongo.marshal doc)) as Hfound
    by (rewrite (Hkept id Hid), <- Hcoll; apply lookup_insert_eq).
  rewrite New_run, Hcook, Hopen, load_run. simpl. rewrite Hid.
  destruct (FindOne_run id later) as (-> & _ & _).
  rewrite Hanswers, Hfound. unfold sessions.Name in *. cbn [mongo.marshal Data].
  rewrite Hopen_values. simpl.
  eexists _, _. split; [reflexivity|]. simpl.
  rewrite (right_id_L ∅ (∪)). auto.
Qed.

End round_trip.

(** ** Max-age *)

(** [CodecsFromPairs] builds codecs of the type [*SecureCookie] only. *)
Lemma CodecsFromPairs_SecureCookie (keyPairs : list (list byte)) :
  Forall (fun codec => exists sc, codec = securecookie.SecureCookiePtr sc)
         (securecookie.CodecsFromPairs keyPairs).
Proof.
  assert (forall n keyPairs, (length keyPairs <= n)%nat ->
            Forall (fun codec => exists sc, codec = securecookie.SecureCookiePtr sc)
                   (securecookie.CodecsFromPairs keyPairs)) as Hall.
  { intros n. induction n as [|n IH]; intros [|hk [|bk rest]] Hlen; simpl in *;
      try lia; repeat first [apply Forall_nil_2 | apply Forall_cons_2; [by eexists|]].
    apply IH. lia. }
  by apply (Hall (length keyPairs)).
Qed.

(** The codec list after [MaxAge], as a map over the list before. *)
Lemma MaxAge_Codecs m age :
  Codecs (MaxAge m age)
  = (fun codec =>
       match codec with
       | securecookie.SecureCookiePtr sc =>
           securecookie.SecureCookiePtr (securecookie.SetMaxAge sc age)
       | other => other
       end) <$> Codecs m.
Proof. reflexivity. Qed.

(** C9, as amended: [MaxAge(age)] sets the store's [Options.MaxAge] to
    [age] and the expiry window of every codec of the list that is a
    [*securecookie.SecureCookie]; a codec of any other type stays as it is,
    in its place.  The codecs [NewMongoDBStore] builds are all of the first
    kind, so for such a store every codec's window becomes [age]. *)
Theorem MaxAge_sets_SecureCookie_windows m age :
  sessions.MaxAge (Options (MaxAge m age)) = age /\
  length (Codecs (MaxAge m age)) = length (Codecs m) /\
  (forall i sc,
      Codecs m !! i = Some (securecookie.SecureCookiePtr sc) ->
      Codecs (MaxAge m age) !! i
      = Some (securecookie.SecureCookiePtr (securecookie.SetMaxAge sc age)) /\
      securecookie.expiry <$> Codecs (MaxAge m age) !! i = Some age) /\
  (forall i c,
      Codecs m !! i = Some (securecookie.OtherCodec c) ->
      Codecs (MaxAge m age) !! i = Some (securecookie.OtherCodec c)) /\
  (forall maxAge ensureTTL keyPairs w,
      Forall (fun codec => securecookie.expiry codec = age)
        (Codecs (MaxAge (NewMongoDBStore maxAge ensureTTL keyPairs w).1 age))).
Proof.
  split; [reflexivity|].
  split; [apply length_map|].
  split; [|split].
  - intros i sc Hi. rewrite MaxAge_Codecs, list_lookup_fmap, Hi. split; reflexivity.
  - intros i c Hi. rewrite MaxAge_Codecs, list_lookup_fmap, Hi. reflexivity.
  - intros maxAge ensureTTL keyPairs w.
    assert (Codecs (NewMongoDBStore maxAge ensureTTL keyPairs w).1
            = Codecs (MaxAge {| Codecs := securecookie.CodecsFromPairs keyPairs;
                                Options := sessions.mkOptions "/" "" maxAge false false;
                                Token := CookieToken |} maxAge)) as Hbuilt
      by (unfold NewMongoDBStore; destruct ensureTTL;
          [unfold mbind, M_bind; destruct (mongo.CreateIndex _ w)|]; reflexivity).
    rewrite MaxAge_Codecs, Hbuilt, MaxAge_Codecs. simpl.
    apply Forall_fmap, Forall_fmap.
    eapply Forall_impl; [apply CodecsFromPairs_SecureCookie|].
    by intros codec [sc ->].
Qed.

(** ** The properties on the concrete instance *)

Lemma run_eta {A B C D : Type} (x : A * B * C * D) :
  x = (x.1.1.1, x.1.1.2, x.1.2, x.2).
Proof. by destruct x as [[[? ?] ?] ?]. Qed.

(** The readable sealing is faithful at all times, for codecs of the type
    [*SecureCookie]. *)
Lemma demo_sealing_faithful (sealed opened : time.Time) :
  securecookie.faithful (H := demo_sealing) (Codecs demo_store) sealed opened.
Proof.
  intros c c' name value token Hc Hc'.
  apply list_elem_of_singleton in Hc as ->.
  apply list_elem_of_singleton in Hc' as ->.
  simpl. unfold demo_seal, demo_unseal.
  destruct value as [s|m].
  - intros [= <-]. simpl. split; [reflexivity|]. by intros ? [= <-].
  - repeat case_decide; intros [= <-]; subst; simpl;
      (split; [reflexivity|by intros ? [= <-]]).
Qed.

(** C2: on a fresh session with max-age -1, [Save] returns the "invalid
    session id" error, where C2 has it return none. *)
Lemma Save_negative_unsaved_returns_error :
  (demo_save ∅ (-1) demo_world).1.1.1 = Some ErrInvalidId /\
  (demo_save ∅ (-1) demo_world).1.1.1 <> None.
Proof. split; [reflexivity|discriminate]. Qed.

(** [Save_negative_unsaved] on the fresh session of the examples. *)
Lemma Save_negative_unsaved_witness :
  demo_save ∅ (-1) demo_world
  = (Some ErrInvalidId, session_with ∅ (-1), blank_response, demo_world).
Proof.
  apply (Save_negative_unsaved (H := demo_sealing)); [reflexivity|reflexivity].
Defined.

(** C3: the token of [stale] decodes to ["zz"], which is no ObjectID, and
    [New] returns no error, where C3 has it return [ErrInvalidId]. *)
Lemma New_unparsable_identifier_returns_no_error :
  GetToken (Token demo_store) stale "session-key" = Ok "id:zz" /\
  securecookie.decode_chain (securecookie.into_string (H := demo_sealing))
    (clock demo_world) "session-key" "id:zz" (Codecs demo_store) = Ok "zz" /\
  primitive.ObjectIDFromHex "zz" = Err (InvalidByteError "z") /\
  (demo_new stale demo_world).1.2 = None /\
  (demo_new stale demo_world).1.2 <> Some ErrInvalidId.
Proof. repeat split; try reflexivity. discriminate. Qed.

(** [New_unparsable_identifier] on the request [stale]. *)
Lemma New_unparsable_identifier_witness :
  demo_new stale demo_world
  = ((sessions.set_ID (fresh_session demo_store "session-key") "zz", None),
     demo_world).
Proof.
  apply (New_unparsable_identifier (H := demo_sealing) demo_store stale
           "session-key" demo_world "id:zz" "zz" (InvalidByteError "z"));
    reflexivity.
Defined.

(** [New_swallows_load_failure] on the request [returning]: once with an
    empty collection, once with a document that does not decode. *)
Lemma New_swallows_load_failure_witness :
  (demo_new returning demo_world).1
  = (sessions.set_ID (fresh_session demo_store "session-key")
       "5d1bde01abcdef0011223344", None) /\
  (demo_new returning corrupt_world).1
  = (sessions.set_ID (fresh_session demo_store "session-key")
       "5d1bde01abcdef0011223344", None).
Proof.
  split.
  - apply (New_swallows_load_failure (H := demo_sealing) demo_store returning
             "session-key" demo_world "id:5d1bde01abcdef0011223344"
             "5d1bde01abcdef0011223344" demo_oid);
      [reflexivity..|].
    left. reflexivity.
  - apply (New_swallows_load_failure (H := demo_sealing) demo_store returning
             "session-key" corrupt_world "id:5d1bde01abcdef0011223344"
             "5d1bde01abcdef0011223344" demo_oid);
      [reflexivity..|].
    right. eexists _, _. split; reflexivity.
Defined.

(** [New_undecodable_token] on a tampered token and on a request without
    cookie. *)
Lemma New_undecodable_token_witness :
  (exists e, demo_new tampered demo_world
             = ((fresh_session demo_store "session-key", Some e), demo_world)) /\
  demo_new no_cookies demo_world
  = ((fresh_session demo_store "session-key", None), demo_world).
Proof.
  destruct (New_undecodable_token (H := demo_sealing) demo_store tampered
              "session-key" demo_world) as [Htampered _].
  destruct (New_undecodable_token (H := demo_sealing) demo_store no_cookies
              "session-key" demo_world) as [_ Habsent].
  split.
  - apply (Htampered "id_5d1bde01abcdef0011223344"); [reflexivity|].
    apply Forall_cons_2; [|apply Forall_nil_2]. eexists. reflexivity.
  - apply (Habsent ErrNoCookie). reflexivity.
Defined.

(** [Save_New_round_trip] on the values [{"foo": "bar"}]: saved, then loaded
    by the request [returning] in the world [Save] left. *)
Lemma Save_New_round_trip_witness :
  exists loaded later',
    demo_new returning (demo_save foo_bar 3600 demo_world).2
    = ((loaded, None), later') /\
    sessions.Values loaded = foo_bar /\
    sessions.IsNew loaded = false /\
    sessions.ID loaded = "5d1bde01abcdef0011223344".
Proof.
  apply (Save_New_round_trip (H := demo_sealing) demo_store no_cookies
           blank_response (session_with foo_bar 3600) demo_world
           (demo_save foo_bar 3600 demo_world).1.1.2
           (demo_save foo_bar 3600 demo_world).1.2
           (demo_save foo_bar 3600 demo_world).2
           "session-key" "id:5d1bde01abcdef0011223344"
           (sessions.Opts (session_with foo_bar 3600))
           returning (demo_save foo_bar 3600 demo_world).2).
  - simpl. lia.
  - apply (run_eta (demo_save foo_bar 3600 demo_world)).
  - right. left.
  - reflexivity.
  - apply demo_sealing_faithful.
  - reflexivity.
  - reflexivity.
Defined.

(** [Save_cookie_after_upsert] with a driver that fails: the driver's error
    comes back, and no token is set. *)
Lemma Save_cookie_after_upsert_witness :
  (demo_save foo_bar 3600 offline_world).1.1.1
  = Some (ErrDriver "server selection timeout") /\
  (demo_save foo_bar 3600 offline_world).1.2 = blank_response /\
  Forall (fun c => ~ is_SetToken c)
    (calls_since offline_world (demo_save foo_bar 3600 offline_world).2).
Proof.
  destruct (Save_cookie_after_upsert (H := demo_sealing) demo_store no_cookies
              blank_response (session_with foo_bar 3600) offline_world
              _ _ _ _ ltac:(simpl; lia)
              (run_eta (demo_save foo_bar 3600 offline_world)))
    as (_ & _ & Hdriver & _ & Hquiet & _).
  split.
  - apply (Hdriver demo_oid
             {| ID := demo_oid; Data := "values:foo_bar"; Modified := 1000 |}).
    + repeat split.
    + reflexivity.
  - apply (Hquiet (ErrDriver "server selection timeout")). reflexivity.
Defined.

(** [Save_mints_identifier] on the fresh session of the examples. *)
Lemma Save_mints_identifier_witness :
  sessions.ID (demo_save foo_bar 3600 demo_world).1.1.2
  = "5d1bde01abcdef0011223344" /\
  primitive.ObjectIDFromHex (sessions.ID (demo_save foo_bar 3600 demo_world).1.1.2)
  = Ok demo_oid /\
  exists doc,
    collection (demo_save foo_bar 3600 demo_world).2 !! demo_oid = Some doc /\
    ID doc = demo_oid.
Proof.
  destruct (Save_mints_identifier (H := demo_sealing) demo_store no_cookies
              blank_response (session_with foo_bar 3600) demo_world
              _ _ _ _ eq_refl ltac:(simpl; lia)
              (run_eta (demo_save foo_bar 3600 demo_world)))
    as (Hid & _ & _ & Hparse & _ & _ & Hstored).
  split; [exact Hid|]. split; [exact Hparse|].
  apply Hstored. reflexivity.
Defined.



(** [Save_assigns_identifier] with a driver that fails: [Save] returns the
    error, and the session keeps the identifier. *)
Lemma Save_assigns_identifier_witness :
  (demo_save foo_bar 3600 offline_world).1.1.1
  = Some (ErrDriver "server selection timeout") /\
  sessions.ID (demo_save foo_bar 3600 offline_world).1.1.2
  = "5d1bde01abcdef0011223344" /\
  sessions.Values (demo_save foo_bar 3600 offline_world).1.1.2 = foo_bar /\
  sessions.IsNew (demo_save foo_bar 3600 offline_world).1.1.2 = true.
Proof.
  destruct (Save_assigns_identifier (H := demo_sealing) demo_store no_cookies
              blank_response (session_with foo_bar 3600) offline_world
              _ _ _ _ eq_refl ltac:(simpl; lia)
              (run_eta (demo_save foo_bar 3600 offline_world)))
    as (Hid & _ & Hvalues & _ & Hnew).
  split; [reflexivity|]. split; [exact Hid|]. split; assumption.
Defined.

(** C9: after [MaxAge(7200)] on a store whose first codec is of another
    type, that codec's window is still its own 60 seconds, where C9 has
    every codec's window become 7200. *)
Lemma MaxAge_skips_other_codecs :
  securecookie.expiry <$> Codecs (MaxAge mixed_store 7200) = [60%Z; 7200%Z] /\
  ~ Forall (fun codec => securecookie.expiry codec = 7200%Z)
      (Codecs (MaxAge mixed_store 7200)).
Proof.
  split; [reflexivity|].
  intros Hall. apply Forall_cons in Hall as [Hfirst _]. discriminate Hfirst.
Qed.

(** * Further properties of the store *)

(** ** What the driver's calls leave alone *)

Lemma ReplaceOne_objectIDs id doc w :
  objectIDs (mongo.ReplaceOne id doc w).2 = objectIDs w.
Proof.
  unfold mongo.ReplaceOne, mongo.roundTrip, mongo.put. step.
  by destruct (driver w) as [|[e|] rest].
Qed.

Lemma DeleteOne_objectIDs id w :
  objectIDs (mongo.DeleteOne id w).2 = objectIDs w.
Proof.
  unfold mongo.DeleteOne, mongo.roundTrip, mongo.remove. step.
  by destruct (driver w) as [|[e|] rest].
Qed.

Lemma FindOne_calls id w :
  calls (mongo.FindOne id w).2 = calls w ++ [FindOne_call id] /\
  objectIDs (mongo.FindOne id w).2 = objectIDs w.
Proof.
  unfold mongo.FindOne, mongo.roundTrip. step.
  destruct (driver w) as [|[e|] rest]; simpl; [|auto|];
    destruct (collection w !! id); auto.
Qed.

Section deleting.
Context `{securecookie.Sealing}.

(** The negative branch of [Save], step by step. *)
Lemma Save_drop m r rw session w :
  (sessions.MaxAge (sessions.Opts session) < 0)%Z ->
  Save m r rw session w =
    match primitive.ObjectIDFromHex (sessions.ID session) with
    | Err _ => (Some ErrInvalidId, session, rw, w)
    | Ok id =>
        let '(err, w2) := mongo.DeleteOne id w in
        match err with
        | Some e => (Some e, session, rw, w2)
        | None =>
            (None, session,
             SetToken (Token m) rw (sessions.Name session) "" (sessions.Opts session),
             (log (SetToken_call (sessions.Name session) "" (sessions.Opts session))
                w2).2)
        end
    end.
Proof.
  intros Hage. unfold Save, delete. apply Z.ltb_lt in Hage. rewrite Hage.
  destruct (primitive.ObjectIDFromHex (sessions.ID session)) as [id|e]; [|reflexivity].
  unfold mbind, M_bind. destruct (mongo.DeleteOne id w) as [[e|] w2]; reflexivity.
Qed.

(** X1: [Save] with a negative max-age, on a session whose identifier
    parses and with a driver that answers, returns no error, whether a
    document of that key existed or not: afterwards the collection has none
    under the key, every other document is as it was, the session is
    untouched, and the token transport was asked once, after the deletion,
    to set the empty token with the session's own options. *)
Theorem Save_negative_deletes m r rw session w id err session' rw' w' :
  (sessions.MaxAge (sessions.Opts session) < 0)%Z ->
  primitive.ObjectIDFromHex (sessions.ID session) = Ok id ->
  next_failure w = None ->
  Save m r rw session w = (err, session', rw', w') ->
  err = None /\ session' = session /\
  rw' = SetToken (Token m) rw (sessions.Name session) "" (sessions.Opts session) /\
  collection w' = base.delete id (collection w) /\
  collection w' !! id = None /\
  calls_since w w'
  = [DeleteOne_call id None;
     SetToken_call (sessions.Name session) "" (sessions.Opts session)].
Proof.
  intros Hage Hid Hnext Hsave. rewrite Save_drop, Hid in Hsave by assumption.
  destruct (mongo.DeleteOne id w) as [derr w2] eqn:Hdelete.
  destruct (DeleteOne_run _ _ _ _ Hdelete) as (-> & Hcalls & _ & Hcoll).
  rewrite Hnext in *. injection Hsave as <- <- <- <-. simpl.
  rewrite Hcoll.
  repeat split; [apply lookup_delete_eq|].
  apply calls_since_app. simpl. by rewrite Hcalls, <- app_assoc.
Qed.

(** X2: when the driver's round trip fails in the negative branch, [Save]
    returns the driver's error; no document is removed, the response is
    untouched and [SetToken] is not called, so the client keeps its cookie
    and the server its document. *)
Theorem Save_negative_driver_failure m r rw session w id e err session' rw' w' :
  (sessions.MaxAge (sessions.Opts session) < 0)%Z ->
  primitive.ObjectIDFromHex (sessions.ID session) = Ok id ->
  next_failure w = Some e ->
  Save m r rw session w = (err, session', rw', w') ->
  err = Some e /\ session' = session /\ rw' = rw /\
  collection w' = collection w /\
  calls_since w w' = [DeleteOne_call id (Some e)].
Proof.
  intros Hage Hid Hnext Hsave. rewrite Save_drop, Hid in Hsave by assumption.
  destruct (mongo.DeleteOne id w) as [derr w2] eqn:Hdelete.
  destruct (DeleteOne_run _ _ _ _ Hdelete) as (-> & Hcalls & _ & Hcoll).
  rewrite Hnext in *. injection Hsave as <- <- <- <-.
  repeat split; [assumption|]. by apply calls_since_app.
Qed.

(** X3: a session whose identifier is set but is not the hexadecimal form of
    twelve bytes cannot be saved, and one whose identifier does not parse
    (empty or not) cannot be deleted: [Save] returns the "invalid session
    id" error and leaves the session, the response and the world exactly as
    they were (no identifier is minted, the driver is not called). *)
Theorem Save_invalid_identifier m r rw session w e :
  primitive.ObjectIDFromHex (sessions.ID session) = Err e ->
  sessions.ID session <> "" \/ (sessions.MaxAge (sessions.Opts session) < 0)%Z ->
  Save m r rw session w = (Some ErrInvalidId, session, rw, w).
Proof.
  intros Hid Hcase.
  destruct (Z.lt_ge_cases (sessions.MaxAge (sessions.Opts session)) 0) as [Hneg|Hage].
  - by rewrite Save_drop, Hid.
  - destruct Hcase as [Hset|Hneg]; [|lia].
    rewrite Save_keep, minted_nonempty by assumption.
    unfold upsert. by rewrite Hid.
Qed.

End deleting.

Section save_frame.
Context `{securecookie.Sealing}.

Lemma upsert_objectIDs m session w :
  objectIDs (upsert m session w).2 = objectIDs w.
Proof.
  destruct (upsert m session w) as [err w'] eqn:Hupsert.
  destruct (upsert_cases _ _ _ _ _ Hupsert)
    as [e Hid|id val Hid Hval Hassert|id t e Hid Ht Henc|id t data uerr w2 Hid Ht Henc Hr];
    try reflexivity.
  simpl.
  by rewrite <- (ReplaceOne_objectIDs id {| ID := id; Data := data; Modified := t |} w), Hr.
Qed.

(** Minting leaves the name and the options of the session. *)
Lemma minted_name_options session w :
  sessions.Name (minted session w).1 = sessions.Name session /\
  sessions.Opts (minted session w).1 = sessions.Opts session.
Proof. unfold minted. by destruct (decide (sessions.ID session = "")). Qed.

(** X4: [Save] writes into the session only to mint an identifier: when the
    session has one already, or the max-age is negative, the session comes
    back exactly as it went in, whatever [Save] returns, and no ObjectID is
    taken from the generator. *)
Theorem Save_leaves_session m r rw session w err session' rw' w' :
  sessions.ID session <> "" \/ (sessions.MaxAge (sessions.Opts session) < 0)%Z ->
  Save m r rw session w = (err, session', rw', w') ->
  session' = session /\ objectIDs w' = objectIDs w.
Proof.
  intros Hcase Hsave.
  destruct (Z.lt_ge_cases (sessions.MaxAge (sessions.Opts session)) 0) as [Hneg|Hage].
  - rewrite Save_drop in Hsave by assumption.
    destruct (primitive.ObjectIDFromHex (sessions.ID session)) as [id|e];
      [|by injection Hsave as <- <- <- <-].
    pose proof (DeleteOne_objectIDs id w) as Hids.
    destruct (mongo.DeleteOne id w) as [[e|] w2]; by injection Hsave as <- <- <- <-.
  - destruct Hcase as [Hset|Hneg]; [|lia].
    rewrite Save_keep, minted_nonempty in Hsave by assumption.
    pose proof (upsert_objectIDs m session w) as Hids.
    destruct (upsert m session w) as [[e|] w2]; [by injection Hsave as <- <- <- <-|].
    destruct (securecookie.encode_chain _ _ _ _); by injection Hsave as <- <- <- <-.
Qed.

(** X5: [Save] touches at most the document of the session's own key: every
    document under another key is after the call what it was before, in
    both branches and whatever [Save] returns. *)
Theorem Save_touches_one_document m r rw session w err session' rw' w' id' :
  Save m r rw session w = (err, session', rw', w') ->
  primitive.ObjectIDFromHex (sessions.ID session') <> Ok id' ->
  collection w' !! id' = collection w !! id'.
Proof.
  intros Hsave Hother.
  destruct (Z.lt_ge_cases (sessions.MaxAge (sessions.Opts session)) 0) as [Hneg|Hage].
  - rewrite Save_drop in Hsave by assumption.
    destruct (primitive.ObjectIDFromHex (sessions.ID session)) as [id|e] eqn:Hid;
      [|by injection Hsave as <- <- <- <-].
    destruct (mongo.DeleteOne id w) as [derr w2] eqn:Hdelete.
    destruct (DeleteOne_run _ _ _ _ Hdelete) as (_ & _ & _ & Hcoll).
    assert (session' = session /\ w' = w2 \/
            session' = session /\ collection w' = collection w2) as [[-> ->]|[-> Hw']]
      by (destruct derr; injection Hsave as <- <- <- <-; auto).
    all: try rewrite Hw'; rewrite Hcoll; destruct derr; try reflexivity;
      apply lookup_delete_ne; congruence.
  - destruct (Save_keep_outcome _ _ _ _ _ _ _ _ _ Hage Hsave) as (-> & _ & Hout).
    destruct (minted_frame session w) as (_ & _ & Hcoll1 & _).
    inversion Hout as [e0 Hu Herr Hrw Hcalls Hcoll
                      |id doc e0 Hp Hnext Herr Hrw Hcalls Hcoll
                      |id doc e0 Hp Hnext Henc Herr Hrw Hcalls Hcoll
                      |id doc token Hp Hnext Henc Herr Hrw Hcalls Hcoll];
      rewrite <- Hcoll1; try reflexivity;
      destruct Hp as (Hid & _); apply lookup_insert_ne; congruence.
Qed.

(** X6: a successful [Save] with non-negative max-age inserts or replaces:
    the keys of the collection are those it had and the session's key; the
    number of documents grows by one when the key was new and stays when a
    document of the key was there. *)
Theorem Save_inserts_or_replaces m r rw session w session' rw' w' :
  (0 <= sessions.MaxAge (sessions.Opts session))%Z ->
  Save m r rw session w = (None, session', rw', w') ->
  exists id,
    primitive.ObjectIDFromHex (sessions.ID session') = Ok id /\
    is_Some (collection w' !! id) /\
    dom (collection w') = {[ id ]} ∪ dom (collection w) /\
    (is_Some (collection w !! id) -> size (collection w') = size (collection w)) /\
    (collection w !! id = None -> size (collection w') = S (size (collection w))).
Proof.
  intros Hage Hsave.
  destruct (Save_keep_outcome _ _ _ _ _ _ _ _ _ Hage Hsave) as (-> & _ & Hout).
  destruct (minted_frame session w) as (_ & _ & Hcoll1 & _).
  inversion Hout as [| | |id doc token (Hid & _) Hnext Henc Herr Hrw Hcalls Hcoll].
  exists id. rewrite Hcoll1.
  split; [assumption|].
  split; [rewrite lookup_insert_eq; by eexists|].
  split; [apply dom_insert_L|].
  split; [intros [old Hold]; by eapply map_size_insert_Some
         |apply map_size_insert_None].
Qed.

(** X7: what a successful [Save] with non-negative max-age has done: one
    [ReplaceOne], which stored under the session's key a document whose
    data is the encoding of the session's values, then one [SetToken], whose
    token is the encoding of the identifier alone, under the session's name
    and options.  Nothing else was called. *)
Theorem Save_success m r rw session w session' rw' w' :
  (0 <= sessions.MaxAge (sessions.Opts session))%Z ->
  Save m r rw session w = (None, session', rw', w') ->
  exists id doc token,
    primitive.ObjectIDFromHex (sessions.ID session') = Ok id /\
    ID doc = id /\
    securecookie.encode_chain (clock w) (sessions.Name session)
      (PValues (sessions.Values session)) (Codecs m) = Ok (Data doc) /\
    securecookie.encode_chain (clock w) (sessions.Name session)
      (PString (sessions.ID session')) (Codecs m) = Ok token /\
    collection w' = <[id := doc]> (collection w) /\
    rw' = SetToken (Token m) rw (sessions.Name session) token (sessions.Opts session) /\
    calls_since w w'
    = [ReplaceOne_call id doc None;
       SetToken_call (sessions.Name session) token (sessions.Opts session)].
Proof.
  intros Hage Hsave.
  destruct (Save_keep_outcome _ _ _ _ _ _ _ _ _ Hage Hsave) as (-> & _ & Hout).
  destruct (minted_frame session w) as (Hclock & _ & Hcoll1 & _).
  destruct (minted_name_options session w) as (Hname & Hopts).
  pose proof (minted_values session w) as Hvalues.
  inversion Hout as [| | |id doc token (Hid & Hdoc & _ & Hdata) Hnext Henc
                          Herr Hrw Hcalls Hcoll].
  rewrite Hclock, Hname in *. rewrite Hvalues in Hdata. rewrite Hopts, Hcoll1.
  exists id, (mongo.marshal doc), token. by repeat split.
Qed.

End save_frame.

(** ** Further properties of [load] and [New] *)

Section loading_frame.
Context `{securecookie.Sealing}.

(** The world [load] leaves is the one it found, or the one [FindOne]
    left. *)
Lemma load_world m session w :
  (load m session w).2 = w \/
  exists id,
    primitive.ObjectIDFromHex (sessions.ID session) = Ok id /\
    (load m session w).2 = (mongo.FindOne id w).2.
Proof.
  rewrite load_run.
  destruct (primitive.ObjectIDFromHex (sessions.ID session)) as [id|e0]; [|by left].
  right. exists id. split; [reflexivity|].
  destruct (mongo.FindOne id w).1 as [doc|e0]; [|reflexivity].
  by destruct (securecookie.decode_chain _ _ _ _ _).
Qed.

(** The world [New] leaves is the one it found, or the one [FindOne] left. *)
Lemma New_world m r name w :
  (New m r name w).2 = w \/ exists id, (New m r name w).2 = (mongo.FindOne id w).2.
Proof.
  rewrite New_run.
  destruct (GetToken (Token m) r name) as [cook|e0]; [|by left].
  destruct (securecookie.decode_chain _ _ _ _ _) as [id|e0]; [|by left].
  destruct (load_world m (sessions.set_ID (fresh_session m name) id) w)
    as [Hw|(oid & _ & Hw)];
    destruct (load m _ w) as [[session [e|]] w']; simpl in *; subst; eauto.
Qed.

(** X8: [New] only reads: the collection, the clock and the generator are
    after the call what they were before, and the only call it can make is
    one [FindOne]; in particular it never writes a document and never sets a
    token. *)
Theorem New_reads_only m r name w :
  collection (New m r name w).2 = collection w /\
  clock (New m r name w).2 = clock w /\
  objectIDs (New m r name w).2 = objectIDs w /\
  Forall is_FindOne (calls_since w (New m r name w).2) /\
  (length (calls_since w (New m r name w).2) <= 1)%nat.
Proof.
  destruct (New_world m r name w) as [->|[id ->]].
  - rewrite (calls_since_app w w []) by (by rewrite app_nil_r).
    repeat split; [apply Forall_nil_2|simpl; lia].
  - destruct (FindOne_run id w) as (_ & Hclock & Hcoll).
    destruct (FindOne_calls id w) as (Hcalls & Hids).
    rewrite (calls_since_app w _ [FindOne_call id]) by assumption.
    repeat split; try assumption; [|simpl; lia].
    apply Forall_cons_2; [exact I|apply Forall_nil_2].
Qed.

(** X9: the session [New] returns always has the name asked for and a copy
    of the store's options.  It is marked not-new only when [New] returns no
    error and the driver answered with a document stored under the key its
    identifier parses to. *)
Theorem New_session_shape m r name w :
  sessions.name (New m r name w).1.1 = name /\
  sessions.Opts (New m r name w).1.1 = sessions.Opts (fresh_session m name) /\
  (sessions.IsNew (New m r name w).1.1 = false ->
   (New m r name w).1.2 = None /\
   next_failure w = None /\
   exists id doc,
     primitive.ObjectIDFromHex (sessions.ID (New m r name w).1.1) = Ok id /\
     collection w !! id = Some doc).
Proof.
  rewrite New_run.
  destruct (GetToken (Token m) r name) as [cook|e0]; [|by repeat split].
  destruct (securecookie.decode_chain _ _ _ _ _) as [id|e0]; [|by repeat split].
  rewrite load_run. simpl.
  destruct (primitive.ObjectIDFromHex id) as [oid|e0] eqn:Hid; [|by repeat split].
  destruct (FindOne_run oid w) as (-> & _ & _).
  destruct (next_failure w) as [e0|]; [by repeat split|].
  destruct (collection w !! oid) as [doc|] eqn:Hdoc; [|by repeat split].
  destruct (securecookie.decode_chain _ _ _ _ _) as [values|e0]; [|by repeat split].
  simpl. repeat split. eauto.
Qed.

(** X10: the only error [New] ever returns is the error of decoding the
    cookie token; it comes with the fresh session and an untouched world.
    No error of [load] (invalid identifier, driver, missing document,
    undecodable data) reaches the caller. *)
Theorem New_error_is_token_error m r name w e :
  (New m r name w).1.2 = Some e ->
  exists cook,
    GetToken (Token m) r name = Ok cook /\
    securecookie.decode_chain securecookie.into_string (clock w) name cook (Codecs m)
    = Err e /\
    New m r name w = ((fresh_session m name, Some e), w).
Proof.
  rewrite New_run.
  destruct (GetToken (Token m) r name) as [cook|e0]; [|discriminate].
  destruct (securecookie.decode_chain _ _ _ _ _) as [id|e0] eqn:Hdecode.
  - destruct (load m _ w) as [[session [e1|]] w']; discriminate.
  - intros [= ->]. by exists cook.
Qed.

(** X11: the loading path of [New]: when the token decodes to an identifier
    that parses, the driver answers with the document of that key, and the
    document's data decodes, [New] returns no error and a session with that
    identifier, the decoded values, the store's options, and is-new
    false. *)
Theorem New_loads_document m r name w cook id oid doc values :
  GetToken (Token m) r name = Ok cook ->
  securecookie.decode_chain securecookie.into_string (clock w) name cook (Codecs m)
  = Ok id ->
  primitive.ObjectIDFromHex id = Ok oid ->
  next_failure w = None ->
  collection w !! oid = Some doc ->
  securecookie.decode_chain (securecookie.into_values ∅) (clock w) name
    (Data doc) (Codecs m) = Ok values ->
  (New m r name w).1
  = ({| sessions.ID := id; sessions.Values := values;
        sessions.Opts := sessions.Opts (fresh_session m name);
        sessions.IsNew := false; sessions.name := name |}, None).
Proof.
  intros Hcook Hid Hparse Hnext Hdoc Hvalues.
  rewrite New_run, Hcook, Hid, load_run. simpl. rewrite Hparse.
  destruct (FindOne_run oid w) as (-> & _ & _).
  rewrite Hnext, Hdoc. unfold sessions.Name. simpl. rewrite Hvalues. reflexivity.
Qed.

(** X12: an error of the driver while loading is not reported: when the
    token decodes to an identifier that parses and the round trip of
    [FindOne] fails, [New] returns no error and a session that is new and
    has no values, even if the document exists. *)
Theorem New_swallows_driver_failure m r name w cook id oid e :
  GetToken (Token m) r name = Ok cook ->
  securecookie.decode_chain securecookie.into_string (clock w) name cook (Codecs m)
  = Ok id ->
  primitive.ObjectIDFromHex id = Ok oid ->
  next_failure w = Some e ->
  (New m r name w).1 = (sessions.set_ID (fresh_session m name) id, None) /\
  calls_since w (New m r name w).2 = [FindOne_call oid].
Proof.
  intros Hcook Hid Hparse Hnext.
  rewrite New_run, Hcook, Hid, load_run. simpl. rewrite Hparse.
  destruct (FindOne_run oid w) as (-> & _ & _).
  destruct (FindOne_calls oid w) as (Hcalls & _).
  rewrite Hnext. simpl. split; [reflexivity|]. by apply calls_since_app.
Qed.

End loading_frame.

(** ** Further properties of [MaxAge] and [NewMongoDBStore] *)

(** X13: [MaxAge] called twice leaves the store as the last call alone
    would; and it changes nothing of the store but the max-age of the
    options and the codecs: the token transport and the path, domain,
    secure and http-only options stay. *)
Theorem MaxAge_last_wins m a b :
  MaxAge (MaxAge m a) b = MaxAge m b /\
  Token (MaxAge m a) = Token m /\
  sessions.Path (Options (MaxAge m a)) = sessions.Path (Options m) /\
  sessions.Domain (Options (MaxAge m a)) = sessions.Domain (Options m) /\
  sessions.Secure (Options (MaxAge m a)) = sessions.Secure (Options m) /\
  sessions.HttpOnly (Options (MaxAge m a)) = sessions.HttpOnly (Options m).
Proof.
  split; [|by repeat split].
  unfold MaxAge at 1 3. rewrite MaxAge_Codecs. simpl. f_equal.
  change (map ?f (?g <$> Codecs m)) with (f <$> (g <$> Codecs m)).
  rewrite <- list_fmap_compose. apply list_fmap_ext.
  intros i codec _. by destruct codec.
Qed.

(** The calls of [NewMongoDBStore]: the index creation when it is asked
    for, nothing otherwise. *)
Lemma NewMongoDBStore_calls maxAge ensureTTL keyPairs w :
  collection (NewMongoDBStore maxAge ensureTTL keyPairs w).2 = collection w /\
  calls_since w (NewMongoDBStore maxAge ensureTTL keyPairs w).2
  = (if ensureTTL
     then [CreateIndex_call (mongo.int32 maxAge) (next_failure w)]
     else []).
Proof.
  unfold NewMongoDBStore, mongo.CreateIndex, mongo.roundTrip, next_failure.
  destruct ensureTTL; step.
  - destruct (driver w) as [|[e|] rest]; simpl;
      (split; [reflexivity|by apply calls_since_app]).
  - split; [reflexivity|]. apply calls_since_app. by rewrite app_nil_r.
Qed.

(** X14: what [NewMongoDBStore] builds and does: the options are path ["/"]
    and the given max-age, the transport is [CookieToken], every codec's
    window is the given max-age; the store does not depend on whether the
    index was asked for or could be created; no document is touched; without
    [ensureTTL] nothing is called at all, with it the one call is the index
    creation, with the max-age cut to 32 bits. *)
Theorem NewMongoDBStore_builds maxAge ensureTTL keyPairs w :
  Options (NewMongoDBStore maxAge ensureTTL keyPairs w).1
  = sessions.mkOptions "/" "" maxAge false false /\
  Token (NewMongoDBStore maxAge ensureTTL keyPairs w).1 = CookieToken /\
  Forall (fun codec => securecookie.expiry codec = maxAge)
    (Codecs (NewMongoDBStore maxAge ensureTTL keyPairs w).1) /\
  (forall w0, (NewMongoDBStore maxAge ensureTTL keyPairs w).1
              = (NewMongoDBStore maxAge false keyPairs w0).1) /\
  collection (NewMongoDBStore maxAge ensureTTL keyPairs w).2 = collection w /\
  calls_since w (NewMongoDBStore maxAge ensureTTL keyPairs w).2
  = (if ensureTTL
     then [CreateIndex_call (mongo.int32 maxAge) (next_failure w)]
     else []).
Proof.
  assert ((NewMongoDBStore maxAge ensureTTL keyPairs w).1
          = MaxAge {| Codecs := securecookie.CodecsFromPairs keyPairs;
                      Options := sessions.mkOptions "/" "" maxAge false false;
                      Token := CookieToken |} maxAge) as ->
    by (unfold NewMongoDBStore; destruct ensureTTL;
        [unfold mbind, M_bind; destruct (mongo.CreateIndex _ w)|]; reflexivity).
  split; [reflexivity|]. split; [reflexivity|].
  split.
  { rewrite MaxAge_Codecs. apply Forall_fmap.
    eapply Forall_impl; [apply CodecsFromPairs_SecureCookie|].
    by intros codec [sc ->]. }
  split; [reflexivity|].
  apply NewMongoDBStore_calls.
Qed.

(** X15: when the max-age fits a signed 32-bit integer, the index
    [NewMongoDBStore] asks for expires documents after exactly the max-age;
    the outcome of the creation is not looked at. *)
Theorem NewMongoDBStore_index_expiry maxAge keyPairs w :
  (- 2 ^ 31 <= maxAge < 2 ^ 31)%Z ->
  calls_since w (NewMongoDBStore maxAge true keyPairs w).2
  = [CreateIndex_call maxAge (next_failure w)].
Proof.
  intros Hrange.
  destruct (NewMongoDBStore_calls maxAge true keyPairs w) as (_ & ->).
  unfold mongo.int32.
  replace ((maxAge + 2 ^ 31) mod 2 ^ 32 - 2 ^ 31)%Z with maxAge; [reflexivity|].
  rewrite Z.mod_small; lia.
Qed.

(** ** Stores that cannot save *)

Section unusable.
Context `{securecookie.Sealing}.

(** X16: a store without codecs (built without key pairs) persists nothing:
    [Save] with non-negative max-age always returns an error (the invalid
    identifier, the invalid modified value, or "no codecs provided"), does
    not call the driver, writes no document and sets no token; and [New] on
    a request that carries a token returns "no codecs provided" with the
    fresh session. *)
Theorem store_without_codecs m r rw session w name :
  Codecs m = [] ->
  (forall err session' rw' w',
      (0 <= sessions.MaxAge (sessions.Opts session))%Z ->
      Save m r rw session w = (err, session', rw', w') ->
      (err = Some ErrInvalidId \/ err = Some ErrInvalidModified \/
       err = Some errNoCodecs) /\
      rw' = rw /\ collection w' = collection w /\ calls_since w w' = []) /\
  (forall cook,
      GetToken (Token m) r name = Ok cook ->
      New m r name w = ((fresh_session m name, Some errNoCodecs), w)).
Proof.
  intros Hnone. split.
  - intros err session' rw' w' Hage Hsave.
    destruct (Save_keep_outcome _ _ _ _ _ _ _ _ _ Hage Hsave) as (_ & _ & Hout).
    destruct (minted_frame session w) as (_ & _ & Hcoll1 & _).
    inversion Hout as [e0 Hu Herr Hrw Hcalls Hcoll
                      |id doc e0 Hp Hnext Herr Hrw Hcalls Hcoll
                      |id doc e0 Hp Hnext Henc Herr Hrw Hcalls Hcoll
                      |id doc token Hp Hnext Henc Herr Hrw Hcalls Hcoll];
      try (destruct Hp as (_ & _ & _ & Hdata); rewrite Hnone in Hdata; discriminate).
    split; [|by rewrite <- Hcoll1].
    destruct (upsert_cases _ _ _ _ _ Hu)
      as [e Hid|id val Hid Hval Hassert|id t e Hid Ht Henc|id t data uerr w2 Hid Ht Henc Hr];
      rewrite ?Hnone in *; simplify_eq; auto.
    injection Henc as <-. auto.
  - intros cook Hcook. by rewrite New_run, Hcook, Hnone.
Qed.

(** X17: with a store whose default max-age is negative, a first visit
    cannot be saved: the session [New] makes for a request without token
    carries that max-age and no identifier, so [Save] takes the deleting
    branch and returns the "invalid session id" error, touching nothing. *)
Theorem negative_store_first_visit m r name w e r' rw w' :
  (sessions.MaxAge (Options m) < 0)%Z ->
  GetToken (Token m) r name = Err e ->
  (New m r name w).1 = (fresh_session m name, None) /\
  Save m r' rw (New m r name w).1.1 w'
  = (Some ErrInvalidId, (New m r name w).1.1, rw, w').
Proof.
  intros Hneg Htoken. rewrite New_run, Htoken. simpl.
  split; [reflexivity|]. by rewrite Save_drop.
Qed.

End unusable.

(** ** Saving with one store, loading with another *)

Section rotation.
Context `{securecookie.Sealing}.

(** What one codec of a faithful chain sealed, the whole chain opens. *)
Lemma faithful_chain_opens {A : Type} codecs codecs' sealed opened name value token
    (into : securecookie.Codec -> time.Time -> string -> string -> result A)
    (project : payload -> result A) (a : A) :
  (forall codec, into codec opened name token
                 = match securecookie.Decode codec opened name token with
                   | Ok v => project v
                   | Err e => Err e
                   end) ->
  project value = Ok a ->
  securecookie.faithful codecs' sealed opened ->
  codecs ⊆ codecs' ->
  securecookie.encode_chain sealed name value codecs = Ok token ->
  securecookie.decode_chain into opened name token codecs' = Ok a.
Proof.
  intros Hinto Hvalue Hfaithful Hsub Henc.
  destruct (encode_chain_Ok _ _ _ _ _ Henc) as (c & Hin & Hc).
  apply Hsub in Hin.
  unfold securecookie.decode_chain.
  destruct codecs' as [|c0 codecs']; [by apply elem_of_nil in Hin|].
  apply decode_loop_agree with (codec := c); [assumption| |].
  - rewrite Hinto. by destruct (Hfaithful c c name _ _ Hin Hin Hc) as [-> _].
  - intros c' a' Hin'. rewrite Hinto.
    destruct (securecookie.Decode c' opened name token) as [v|e] eqn:Hc';
      [|discriminate].
    destruct (Hfaithful c c' name _ _ Hin Hin' Hc) as [_ Honly].
    rewrite (Honly _ Hc'). congruence.
Qed.

(** X18: key rotation.  A session saved by one store is loaded by any store
    whose codec list contains the first store's codecs (in any position,
    among others): if the larger chain is faithful between the two times,
    the later request carries the token [Save] set, the document is still
    there and the driver answers, [New] of the second store returns the
    saved values, is-new false and no error. *)
Theorem Save_New_key_rotation m m' r rw session w session' rw' w'
    name token options r2 later :
  (0 <= sessions.MaxAge (sessions.Opts session))%Z ->
  Save m r rw session w = (None, session', rw', w') ->
  SetToken_call name token options ∈ calls_since w w' ->
  Codecs m ⊆ Codecs m' ->
  GetToken (Token m') r2 name = Ok token ->
  securecookie.faithful (Codecs m') (clock w) (clock later) ->
  (forall id, primitive.ObjectIDFromHex (sessions.ID session') = Ok id ->
              collection later !! id = collection w' !! id) ->
  next_failure later = None ->
  exists loaded later',
    New m' r2 name later = ((loaded, None), later') /\
    sessions.Values loaded = sessions.Values session /\
    sessions.IsNew loaded = false /\
    sessions.ID loaded = sessions.ID session'.
Proof.
  intros Hage Hsave Hset Hsub Hcook Hfaithful Hkept Hanswers.
  destruct (Save_keep_outcome _ _ _ _ _ _ _ _ _ Hage Hsave) as (-> & _ & Hout).
  pose proof (minted_values session w) as Hvalues.
  destruct (minted_frame session w) as (Hclock & _).
  destruct (minted session w) as [s1 w1]. simpl in *.
  inversion Hout as [| | |id doc token' (Hid & Hdoc & Ht & Hdata) Hnext Htoken
                            Herr Hrw Hcalls Hcoll].
  rewrite <- Hcalls in Hset.
  apply elem_of_cons in Hset as [[=]|Hset].
  apply list_elem_of_singleton in Hset. injection Hset as -> -> ->.
  rewrite Hclock in Htoken, Hdata.
  assert (securecookie.decode_chain securecookie.into_string (clock later)
            (sessions.Name s1) token' (Codecs m') = Ok (sessions.ID s1)) as Hopen.
  { apply (faithful_chain_opens (Codecs m) (Codecs m') (clock w) (clock later)
             (sessions.Name s1) (PString (sessions.ID s1)) token'
             securecookie.into_string
             (fun v => match v with
                       | PString s => Ok s
                       | PValues _ => Err (ErrCodec "securecookie: type mismatch")
                       end));
      [|reflexivity|assumption..].
    intros c. unfold securecookie.into_string.
    by destruct (securecookie.Decode c _ _ _) as [[?|?]|?]. }
  assert (securecookie.decode_chain (securecookie.into_values ∅) (clock later)
            (sessions.Name s1) (Data doc) (Codecs m')
          = Ok (sessions.Values s1 ∪ ∅)) as Hopen_values.
  { apply (faithful_chain_opens (Codecs m) (Codecs m') (clock w) (clock later)
             (sessions.Name s1) (PValues (sessions.Values s1)) (Data doc)
             (securecookie.into_values ∅)
             (fun v => match v with
                       | PValues m0 => Ok (m0 ∪ ∅)
                       | PString _ => Err (ErrCodec "securecookie: type mismatch")
                       end));
      [|reflexivity|assumption..].
    intros c. unfold securecookie.into_values.
    by destruct (securecookie.Decode c _ _ _) as [[?|?]|?]. }
  assert (collection later !! id = Some (mongo.marshal doc)) as Hfound
    by (rewrite (Hkept id Hid), <- Hcoll; apply lookup_insert_eq).
  rewrite New_run, Hcook, Hopen, load_run. simpl. rewrite Hid.
  destruct (FindOne_run id later) as (-> & _ & _).
  rewrite Hanswers, Hfound. unfold sessions.Name in *. cbn [mongo.marshal Data].
  rewrite Hopen_values. simpl.
  eexists _, _. split; [reflexivity|]. simpl.
  rewrite (right_id_L ∅ (∪)). auto.
Qed.

End rotation.

(** ** The further properties on the concrete instance *)

(** [Save_negative_deletes] on a saved session asked to expire. *)
Lemma Save_negative_deletes_witness :
  (Save (H := demo_sealing) demo_store no_cookies blank_response
     (saved_session foo_bar (-1)) stocked_world).1.1.1 = None /\
  collection (Save (H := demo_sealing) demo_store no_cookies blank_response
                (saved_session foo_bar (-1)) stocked_world).2 !! demo_oid = None.
Proof.
  destruct (Save_negative_deletes (H := demo_sealing) demo_store no_cookies
              blank_response (saved_session foo_bar (-1)) stocked_world demo_oid
              _ _ _ _ ltac:(simpl; lia) eq_refl eq_refl (run_eta _))
    as (Herr & _ & _ & _ & Hgone & _).
  by split.
Defined.

(** [Save_negative_driver_failure] with a driver that fails. *)
Lemma Save_negative_driver_failure_witness :
  (Save (H := demo_sealing) demo_store no_cookies blank_response
     (saved_session foo_bar (-1)) stocked_offline_world).1.1.1
  = Some (ErrDriver "server selection timeout") /\
  collection (Save (H := demo_sealing) demo_store no_cookies blank_response
                (saved_session foo_bar (-1)) stocked_offline_world).2
  = collection stocked_offline_world.
Proof.
  destruct (Save_negative_driver_failure (H := demo_sealing) demo_store no_cookies
              blank_response (saved_session foo_bar (-1)) stocked_offline_world
              demo_oid (ErrDriver "server selection timeout")
              _ _ _ _ ltac:(simpl; lia) eq_refl eq_refl (run_eta _))
    as (Herr & _ & _ & Hcoll & _).
  by split.
Defined.

(** [Save_invalid_identifier] on the identifier ["zz"]. *)
Lemma Save_invalid_identifier_witness :
  Save (H := demo_sealing) demo_store no_cookies blank_response
    misnamed_session demo_world
  = (Some ErrInvalidId, misnamed_session, blank_response, demo_world).
Proof.
  apply (Save_invalid_identifier (H := demo_sealing) demo_store no_cookies
           blank_response misnamed_session demo_world (InvalidByteError "z"));
    [reflexivity|]. left. discriminate.
Defined.

(** [Save_leaves_session] on a session that has its identifier. *)
Lemma Save_leaves_session_witness :
  (Save (H := demo_sealing) demo_store no_cookies blank_response
     (saved_session foo_bar 3600) demo_world).1.1.2 = saved_session foo_bar 3600.
Proof.
  destruct (Save_leaves_session (H := demo_sealing) demo_store no_cookies
              blank_response (saved_session foo_bar 3600) demo_world
              _ _ _ _ ltac:(left; discriminate) (run_eta _)) as (Hsession & _).
  exact Hsession.
Defined.

(** [Save_touches_one_document]: saving under [demo_oid] leaves the
    document of [other_oid]. *)
Lemma Save_touches_one_document_witness :
  collection (demo_save foo_bar 3600 stocked_world).2 !! other_oid
  = collection stocked_world !! other_oid.
Proof.
  apply (Save_touches_one_document (H := demo_sealing) demo_store no_cookies
           blank_response (session_with foo_bar 3600) stocked_world
           _ _ _ _ other_oid (run_eta _)).
  discriminate.
Defined.

(** [Save_inserts_or_replaces] on an empty collection. *)
Lemma Save_inserts_or_replaces_witness :
  exists id,
    primitive.ObjectIDFromHex (sessions.ID (demo_save foo_bar 3600 demo_world).1.1.2)
    = Ok id /\
    dom (collection (demo_save foo_bar 3600 demo_world).2)
    = {[ id ]} ∪ dom (collection demo_world).
Proof.
  destruct (Save_inserts_or_replaces (H := demo_sealing) demo_store no_cookies
              blank_response (session_with foo_bar 3600) demo_world
              _ _ _ ltac:(simpl; lia) (run_eta (demo_save foo_bar 3600 demo_world)))
    as (id & Hid & _ & Hdom & _).
  by exists id.
Defined.

(** [Save_success] on the fresh session of the examples. *)
Lemma Save_success_witness :
  exists id doc token,
    Data doc = "values:foo_bar" /\
    token = "id:5d1bde01abcdef0011223344" /\
    collection (demo_save foo_bar 3600 demo_world).2
    = <[id := doc]> (collection demo_world).
Proof.
  destruct (Save_success (H := demo_sealing) demo_store no_cookies
              blank_response (session_with foo_bar 3600) demo_world
              _ _ _ ltac:(simpl; lia) (run_eta (demo_save foo_bar 3600 demo_world)))
    as (id & doc & token & _ & _ & Hdata & Htoken & Hcoll & _).
  exists id, doc, token.
  split; [by injection Hdata|]. split; [by injection Htoken|]. exact Hcoll.
Defined.

(** [New_error_is_token_error] on a tampered token. *)
Lemma New_error_is_token_error_witness :
  exists cook,
    GetToken (Token demo_store) tampered "session-key" = Ok cook /\
    demo_new tampered demo_world
    = ((fresh_session demo_store "session-key",
        Some (MultiError [ErrCodec "securecookie: the value is not valid"])),
       demo_world).
Proof.
  destruct (New_error_is_token_error (H := demo_sealing) demo_store tampered
              "session-key" demo_world
              (MultiError [ErrCodec "securecookie: the value is not valid"])
              eq_refl) as (cook & Hcook & _ & Hnew).
  by exists cook.
Defined.

(** [New_loads_document] on the stored document of the examples. *)
Lemma New_loads_document_witness :
  sessions.Values (demo_new returning stocked_world).1.1 = foo_bar /\
  sessions.IsNew (demo_new returning stocked_world).1.1 = false /\
  (demo_new returning stocked_world).1.2 = None.
Proof.
  pose proof (New_loads_document (H := demo_sealing) demo_store returning
                "session-key" stocked_world "id:5d1bde01abcdef0011223344"
                "5d1bde01abcdef0011223344" demo_oid demo_document (foo_bar ∪ ∅)
                eq_refl eq_refl eq_refl eq_refl eq_refl eq_refl) as Hnew.
  unfold demo_new. rewrite Hnew. simpl. by rewrite (right_id_L ∅ (∪)).
Defined.

(** [New_swallows_driver_failure] on a stored document and a driver that
    fails. *)
Lemma New_swallows_driver_failure_witness :
  (demo_new returning stocked_offline_world).1
  = (sessions.set_ID (fresh_session demo_store "session-key")
       "5d1bde01abcdef0011223344", None).
Proof.
  destruct (New_swallows_driver_failure (H := demo_sealing) demo_store returning
              "session-key" stocked_offline_world "id:5d1bde01abcdef0011223344"
              "5d1bde01abcdef0011223344" demo_oid
              (ErrDriver "server selection timeout")
              eq_refl eq_refl eq_refl eq_refl) as (Hnew & _).
  exact Hnew.
Defined.

(** [NewMongoDBStore_index_expiry] for an hour. *)
Lemma NewMongoDBStore_index_expiry_witness :
  calls_since demo_world (NewMongoDBStore 3600 true [["k"%char]] demo_world).2
  = [CreateIndex_call 3600 None].
Proof.
  apply (NewMongoDBStore_index_expiry 3600 [["k"%char]] demo_world). lia.
Defined.

(** [store_without_codecs] on the store built without keys. *)
Lemma store_without_codecs_witness :
  (Save (H := demo_sealing) keyless_store no_cookies blank_response
     (session_with foo_bar 3600) demo_world).1.1.1 = Some errNoCodecs /\
  collection (Save (H := demo_sealing) keyless_store no_cookies blank_response
                (session_with foo_bar 3600) demo_world).2 = collection demo_world /\
  New (H := demo_sealing) keyless_store returning "session-key" demo_world
  = ((fresh_session keyless_store "session-key", Some errNoCodecs), demo_world).
Proof.
  destruct (store_without_codecs (H := demo_sealing) keyless_store no_cookies
              blank_response (session_with foo_bar 3600) demo_world "session-key"
              eq_refl) as (Hsave & _).
  destruct (store_without_codecs (H := demo_sealing) keyless_store returning
              blank_response (session_with foo_bar 3600) demo_world "session-key"
              eq_refl) as (_ & Hnew).
  destruct (Hsave _ _ _ _ ltac:(simpl; lia) (run_eta _)) as (_ & _ & Hcoll & _).
  split; [reflexivity|]. split; [exact Hcoll|].
  apply (Hnew "id:5d1bde01abcdef0011223344"). reflexivity.
Defined.

(** [negative_store_first_visit] on the store built with max-age -1. *)
Lemma negative_store_first_visit_witness :
  Save (H := demo_sealing) expired_store no_cookies blank_response
    (fresh_session expired_store "session-key") demo_world
  = (Some ErrInvalidId, fresh_session expired_store "session-key",
     blank_response, demo_world).
Proof.
  destruct (negative_store_first_visit (H := demo_sealing) expired_store no_cookies
              "session-key" demo_world ErrNoCookie no_cookies blank_response
              demo_world ltac:(simpl; lia) eq_refl) as (_ & Hsave).
  exact Hsave.
Defined.

(** The readable sealing is faithful for [mixed_store] too: its other
    codec seals nothing and opens nothing. *)
Lemma mixed_store_faithful (sealed opened : time.Time) :
  securecookie.faithful (H := demo_sealing) (Codecs mixed_store) sealed opened.
Proof.
  intros c c' name value token Hc Hc'.
  apply elem_of_cons in Hc as [->|Hc]; [discriminate|].
  apply list_elem_of_singleton in Hc as ->.
  intros Hseal.
  assert (securecookie.SecureCookiePtr
            (securecookie.SetMaxAge (securecookie.New ["k"%char] []) 3600)
          ∈ Codecs demo_store) as Hin by left.
  apply elem_of_cons in Hc' as [->|Hc'].
  - destruct (demo_sealing_faithful sealed opened _ _ name value token Hin Hin Hseal)
      as [Hopen _].
    split; [exact Hopen|discriminate].
  - exact (demo_sealing_faithful sealed opened _ _ name value token Hin Hc' Hseal).
Qed.

(** [Save_New_key_rotation]: saved by [demo_store], loaded by
    [mixed_store], which tries another codec first. *)
Lemma Save_New_key_rotation_witness :
  exists loaded later',
    New (H := demo_sealing) mixed_store returning "session-key"
      (demo_save foo_bar 3600 demo_world).2
    = ((loaded, None), later') /\
    sessions.Values loaded = foo_bar /\
    sessions.IsNew loaded = false /\
    sessions.ID loaded = "5d1bde01abcdef0011223344".
Proof.
  apply (Save_New_key_rotation (H := demo_sealing) demo_store mixed_store
           no_cookies blank_response (session_with foo_bar 3600) demo_world
           (demo_save foo_bar 3600 demo_world).1.1.2
           (demo_save foo_bar 3600 demo_world).1.2
           (demo_save foo_bar 3600 demo_world).2
           "session-key" "id:5d1bde01abcdef0011223344"
           (sessions.Opts (session_with foo_bar 3600))
           returning (demo_save foo_bar 3600 demo_world).2).
  - simpl. lia.
  - apply (run_eta (demo_save foo_bar 3600 demo_world)).
  - right. left.
  - intros c Hc. by right.
  - reflexivity.
  - apply mixed_store_faithful.
  - reflexivity.
  - reflexivity.
Defined.
